(** * Sales analytics pipeline: a shallow embedding of [utils/data_processor.py]

    The development follows the Python module function by function:
    the record cleaner, the region filter, the analytics reducers, the
    keyword enrichment and the report renderer.

    Modelling conventions.
    - A Python [str] is a [string] of ASCII characters; whitespace, digits
      and letter case follow the ASCII rules of [str.strip], [int], [float]
      and [str.lower].
    - A Python [int] is a [Z]; lengths and counters are [nat].
    - A Python [float] is a [PyFloat]: an exact rational, an infinity or
      NaN.  Finite arithmetic is carried out without rounding, so the model
      is binary64 with unbounded precision and range: a decimal literal
      denotes its exact value, sums and products are exact, and
      [round(x, 2)] rounds the exact value to the nearest hundredth, ties to
      even.  The special values behave as in IEEE 754; the sign of zero is
      not tracked.  The [int] accumulators that the code starts from [0] are
      identified with the float [0.0].
    - A [dict] is an association list in insertion order; [sorted] and
      [list.sort] are a stable insertion sort.
    - A raised exception is the [Raise] branch of [result].  The exceptions
      of the model are those of indexing, of [int], [float] and [min], and
      of division.  Two failures of the code are outside it: the
      [OverflowError] of [int * float] for an [int] beyond the binary64
      range, and a failure to open or write the report file.  For the
      reducers and the report the development therefore states what a
      returned value looks like and which exceptions cannot occur, not that
      the call returns. *)

From Stdlib Require Import List String Ascii Bool Arith ZArith QArith Qreduction.
From Stdlib Require Import DecimalString Lia Permutation Sorted.
Import ListNotations.

Close Scope Q_scope.
Set Implicit Arguments.

(** ** Exceptions *)

Inductive exn : Type :=
| IndexError
| ValueError
| ZeroDivisionError.

Inductive result (A : Type) : Type :=
| Ok (a : A)
| Raise (e : exn).

Arguments Ok {A} a.
Arguments Raise {A} e.

Definition bind {A B : Type} (m : result A) (k : A -> result B) : result B :=
  match m with
  | Ok a => k a
  | Raise e => Raise e
  end.

Notation "x <- m ;; k" := (bind m (fun x => k))
  (at level 61, m at next level, right associativity).

(** [for x in xs: acc = body(acc, x)] where the body may raise. *)
Fixpoint for_each {A S : Type} (body : S -> A -> result S) (xs : list A) (acc : S)
  : result S :=
  match xs with
  | [] => Ok acc
  | x :: rest => acc' <- body acc x ;; for_each body rest acc'
  end.

(** [[f(x) for x in xs]] where [f] may raise. *)
Fixpoint map_result {A B : Type} (f : A -> result B) (xs : list A) : result (list B) :=
  match xs with
  | [] => Ok []
  | x :: rest => y <- f x ;; ys <- map_result f rest ;; Ok (y :: ys)
  end.

(** ** String builtins *)

Module PyStr.

Local Open Scope string_scope.

(** [c.isspace()] on the ASCII range: TAB..CR, FS..US and the blank. *)
Definition isspace (c : ascii) : bool :=
  let n := nat_of_ascii c in
  ((9 <=? n) && (n <=? 13) || (28 <=? n) && (n <=? 32))%nat.

Definition isdigit (c : ascii) : bool :=
  let n := nat_of_ascii c in ((48 <=? n) && (n <=? 57))%nat.

Definition digit_value (c : ascii) : Z := Z.of_nat (nat_of_ascii c) - 48.

(** C's [isspace], the whitespace [int] and [float] skip around a number
    in an ASCII string. *)
Definition isspace_c (c : ascii) : bool :=
  let n := nat_of_ascii c in
  ((9 <=? n) && (n <=? 13) || (n =? 32))%nat.

Section Strip.

Variable blank : ascii -> bool.

Fixpoint lstrip_of (s : string) : string :=
  match s with
  | EmptyString => EmptyString
  | String c s' => if blank c then lstrip_of s' else s
  end.

Fixpoint rstrip_of (s : string) : string :=
  match s with
  | EmptyString => EmptyString
  | String c s' =>
      match rstrip_of s' with
      | EmptyString => if blank c then EmptyString else String c EmptyString
      | r => String c r
      end
  end.

Definition strip_of (s : string) : string := lstrip_of (rstrip_of s).

End Strip.

(** [s.strip()] *)
Definition strip (s : string) : string := strip_of isspace s.

(** [s.split(sep)] for a one-character separator: always at least one field. *)
Fixpoint split (sep : ascii) (s : string) : list string :=
  match s with
  | EmptyString => [EmptyString]
  | String c s' =>
      if Ascii.eqb c sep then EmptyString :: split sep s'
      else match split sep s' with
           | f :: fs => String c f :: fs
           | [] => [String c EmptyString]
           end
  end.

(** [s.replace(old, new)] for a one-character [old]. *)
Fixpoint replace (old : ascii) (new : string) (s : string) : string :=
  match s with
  | EmptyString => EmptyString
  | String c s' =>
      if Ascii.eqb c old then new ++ replace old new s'
      else String c (replace old new s')
  end.

Definition lower_char (c : ascii) : ascii :=
  let n := nat_of_ascii c in
  if ((65 <=? n) && (n <=? 90))%nat then ascii_of_nat (n + 32) else c.

(** [s.lower()] *)
Fixpoint lower (s : string) : string :=
  match s with
  | EmptyString => EmptyString
  | String c s' => String (lower_char c) (lower s')
  end.

(** [sub in s] *)
Fixpoint contains (sub s : string) : bool :=
  String.prefix sub s ||
  match s with
  | EmptyString => false
  | String _ s' => contains sub s'
  end.

(** [s[0]]: raises [IndexError] on the empty string. *)
Definition index0 (s : string) : result ascii :=
  match s with
  | EmptyString => Raise IndexError
  | String c _ => Ok c
  end.

(** Truth value of a string: [not s] is [is_empty s]. *)
Definition is_empty (s : string) : bool :=
  match s with
  | EmptyString => true
  | String _ _ => false
  end.

(** [a < b] on strings: lexicographic on character codes. *)
Definition str_lt (a b : string) : bool := String.ltb a b.

(** The PEP 515 rule shared by [int] and [float]: an underscore is legal
    only between two digits.  Returns the text without underscores. *)
Fixpoint drop_underscores (prev : ascii) (s : string) : option string :=
  match s with
  | EmptyString => if Ascii.eqb prev "_" then None else Some EmptyString
  | String c s' =>
      if Ascii.eqb c "_" then
        if isdigit prev then drop_underscores c s' else None
      else if Ascii.eqb prev "_" && negb (isdigit c) then None
      else match drop_underscores c s' with
           | Some r => Some (String c r)
           | None => None
           end
  end.

(** Reads a maximal run of digits: accumulated value, number of digits read
    and the unread rest. *)
Fixpoint take_digits (acc : Z) (n : nat) (s : string) : Z * nat * string :=
  match s with
  | EmptyString => (acc, n, EmptyString)
  | String c s' =>
      if isdigit c then take_digits (10 * acc + digit_value c) (S n) s'
      else (acc, n, s)
  end.

(** Splits an optional leading sign off: [true] for a minus. *)
Definition take_sign (s : string) : bool * string :=
  match s with
  | String "-" r => (true, r)
  | String "+" r => (false, r)
  | _ => (false, s)
  end.

End PyStr.

(** ** Numbers *)

Module PyNum.

Import PyStr.
Local Open Scope Z_scope.

(** [sys.int_info.default_max_str_digits] *)
Definition max_str_digits : nat := 4300.

(** [int(s)] for a string: surrounding whitespace, an optional sign, decimal
    digits with single underscores between them.  [ValueError] otherwise. *)
Definition py_int (s : string) : result Z :=
  match drop_underscores " " (strip_of isspace_c s) with
  | None => Raise ValueError
  | Some t =>
      let '(neg, body) := take_sign t in
      match take_digits 0 0 body with
      | (v, n, EmptyString) =>
          if ((1 <=? n) && (n <=? max_str_digits))%nat
          then Ok (if neg then - v else v)
          else Raise ValueError
      | _ => Raise ValueError
      end
  end.

(** A float: exact rational, signed infinity or NaN. *)
Inductive PyFloat : Type :=
| Fin (q : Q)
| PInf
| NInf
| NaN.

Definition fzero : PyFloat := Fin 0.

Definition of_int (z : Z) : PyFloat := Fin (z # 1).

Definition is_zero (q : Q) : bool := Z.eqb (Qnum q) 0.
Definition is_neg (q : Q) : bool := Z.ltb (Qnum q) 0.

Definition inf_of_sign (neg : bool) : PyFloat := if neg then NInf else PInf.

Definition fneg (x : PyFloat) : PyFloat :=
  match x with
  | Fin q => Fin (Qred (- q))
  | PInf => NInf
  | NInf => PInf
  | NaN => NaN
  end.

(** [x + y] *)
Definition fadd (x y : PyFloat) : PyFloat :=
  match x, y with
  | NaN, _ | _, NaN => NaN
  | PInf, NInf | NInf, PInf => NaN
  | PInf, _ | _, PInf => PInf
  | NInf, _ | _, NInf => NInf
  | Fin a, Fin b => Fin (Qred (a + b))
  end.

(** [x * y] *)
Definition fmul (x y : PyFloat) : PyFloat :=
  match x, y with
  | NaN, _ | _, NaN => NaN
  | Fin a, Fin b => Fin (Qred (a * b))
  | Fin a, PInf | PInf, Fin a =>
      if is_zero a then NaN else inf_of_sign (is_neg a)
  | Fin a, NInf | NInf, Fin a =>
      if is_zero a then NaN else inf_of_sign (negb (is_neg a))
  | PInf, PInf | NInf, NInf => PInf
  | PInf, NInf | NInf, PInf => NInf
  end.

(** [x / y]: Python raises [ZeroDivisionError] on a zero divisor. *)
Definition fdiv (x y : PyFloat) : result PyFloat :=
  match y with
  | NaN => Ok NaN
  | Fin b =>
      if is_zero b then Raise ZeroDivisionError
      else match x with
           | Fin a => Ok (Fin (Qred (a / b)))
           | PInf => Ok (inf_of_sign (is_neg b))
           | NInf => Ok (inf_of_sign (negb (is_neg b)))
           | NaN => Ok NaN
           end
  | PInf | NInf =>
      match x with
      | Fin _ => Ok (Fin 0)
      | _ => Ok NaN
      end
  end.

(** [x < y]; every comparison with NaN is false. *)
Definition flt (x y : PyFloat) : bool :=
  match x, y with
  | NaN, _ | _, NaN => false
  | Fin a, Fin b => negb (Qle_bool b a)
  | NInf, NInf | PInf, _ => false
  | NInf, _ => true
  | Fin _, PInf => true
  | Fin _, NInf => false
  end.

(** [x <= y] *)
Definition fle (x y : PyFloat) : bool :=
  match x, y with
  | NaN, _ | _, NaN => false
  | Fin a, Fin b => Qle_bool a b
  | NInf, _ => true
  | PInf, PInf => true
  | PInf, _ => false
  | Fin _, PInf => true
  | Fin _, NInf => false
  end.

(** [x > y] *)
Definition fgt (x y : PyFloat) : bool := flt y x.

(** Nearest integer, ties to the even one. *)
Definition round_half_even (q : Q) : Z :=
  let n := Qnum q in
  let d := Z.pos (Qden q) in
  let f := n / d in
  let r := n mod d in
  match 2 * r ?= d with
  | Lt => f
  | Gt => f + 1
  | Eq => if Z.even f then f else f + 1
  end.

(** [round(x, 2)] *)
Definition round2 (x : PyFloat) : PyFloat :=
  match x with
  | Fin q => Fin (Qred (round_half_even (q * 100) # 100))
  | _ => x
  end.

(** [m * 10 ** e] as an exact rational. *)
Definition decimal (m e : Z) : Q :=
  if 0 <=? e then Qred ((m * 10 ^ e) # 1)
  else Qred (m # Z.to_pos (10 ^ (- e))).

(** The exponent part of a float literal. *)
Definition parse_exponent (s : string) : option Z :=
  match s with
  | EmptyString => Some 0
  | String c r =>
      if Ascii.eqb (lower_char c) "e" then
        let '(neg, body) := take_sign r in
        match take_digits 0 0 body with
        | (v, S _, EmptyString) => Some (if neg then - v else v)
        | _ => None
        end
      else None
  end.

(** The unsigned decimal part of a float literal:
    [digits [. [digits]] [exponent]] or [. digits [exponent]]. *)
Definition parse_decimal (s : string) : option Q :=
  let '(ip, ni, r1) := take_digits 0 0 s in
  let '(m, nf, r2) :=
    match r1 with
    | String "." r => take_digits ip 0 r
    | _ => (ip, 0%nat, r1)
    end in
  if (ni + nf =? 0)%nat then None
  else match parse_exponent r2 with
       | Some e => Some (decimal m (e - Z.of_nat nf))
       | None => None
       end.

(** [float(s)] for a string. *)
Definition py_float (s : string) : result PyFloat :=
  match drop_underscores " " (strip_of isspace_c s) with
  | None => Raise ValueError
  | Some t =>
      let '(neg, body) := take_sign t in
      let word := lower body in
      if String.eqb word "inf" || String.eqb word "infinity"
      then Ok (inf_of_sign neg)
      else if String.eqb word "nan" then Ok NaN
      else match parse_decimal body with
           | Some q => Ok (Fin (if neg then Qred (- q) else q))
           | None => Raise ValueError
           end
  end.

End PyNum.

Import PyStr PyNum.


(** ** Container builtins *)

Section Dict.

Variable V : Type.

(** A [dict] with string keys, in insertion order. *)
Definition dict : Type := list (string * V).

(** [k in d] *)
Definition dict_contains (k : string) (d : dict) : bool :=
  existsb (fun kv => String.eqb k (fst kv)) d.

(** [d[k] = v]: an existing key keeps its position, a new key goes last. *)
Fixpoint dict_set (k : string) (v : V) (d : dict) : dict :=
  match d with
  | [] => [(k, v)]
  | (k', v') :: d' =>
      if String.eqb k k' then (k', v) :: d' else (k', v') :: dict_set k v d'
  end.

(** In-place update of the value stored under a key that is present. *)
Fixpoint dict_modify (k : string) (f : V -> V) (d : dict) : dict :=
  match d with
  | [] => []
  | (k', v') :: d' =>
      if String.eqb k k' then (k', f v') :: d' else (k', v') :: dict_modify k f d'
  end.

(** The recurring tally step:
    [if k not in d: d[k] = init] followed by an update of [d[k]]. *)
Definition tally (k : string) (init : V) (f : V -> V) (d : dict) : dict :=
  dict_modify k f (if dict_contains k d then d else dict_set k init d).

End Dict.

Section Sorting.

Variable A : Type.

(** [before y x] holds when [y] has to stand strictly before [x]. *)
Variable before : A -> A -> bool.

Fixpoint insert_by (x : A) (l : list A) : list A :=
  match l with
  | [] => [x]
  | y :: l' => if before y x then y :: insert_by x l' else x :: y :: l'
  end.

(** A stable sort: elements that [before] does not separate keep their
    input order.  On keys that [<] orders totally this is [sorted]. *)
Definition sorted_by (l : list A) : list A := fold_right insert_by [] l.

End Sorting.

(** [s.add(x)] on a set of strings kept in first-insertion order. *)
Definition set_add (x : string) (s : list string) : list string :=
  if existsb (String.eqb x) s then s else s ++ [x].

(** [l[:n]] *)
Definition slice_to {A : Type} (n : Z) (l : list A) : list A :=
  if (0 <=? n)%Z then firstn (Z.to_nat n) l
  else firstn (List.length l - Z.to_nat (- n)) l.

(** [min(l)] and [max(l)] on strings: [ValueError] on an empty list. *)
Definition py_min (l : list string) : result string :=
  match l with
  | [] => Raise ValueError
  | x :: rest => Ok (fold_left (fun m y => if str_lt y m then y else m) rest x)
  end.

Definition py_max (l : list string) : result string :=
  match l with
  | [] => Raise ValueError
  | x :: rest => Ok (fold_left (fun m y => if str_lt m y then y else m) rest x)
  end.

(** ** Task 1.2: the record cleaner *)

Record Transaction : Type := {
  TransactionID : string;
  Date : string;
  ProductID : string;
  ProductName : string;
  Quantity : Z;
  UnitPrice : PyFloat;
  CustomerID : string;
  Region : string
}.

(** One pass of the loop body on a line: [Ok None] is a rejected line
    ([invalid_count += 1; continue]), [Ok (Some tx)] an appended record. *)
Definition clean_entry (entry : string) : result (option Transaction) :=
  match split "|" (strip entry) with
  | [tid; date; pid; pname; qty; price; cid; region] =>
      t0 <- index0 tid ;;
      if negb (Ascii.eqb t0 "T") then Ok None else
      p0 <- index0 pid ;;
      if negb (Ascii.eqb p0 "P") then Ok None else
      if is_empty (strip cid) || is_empty (strip region) then Ok None else
      let pname := replace "," " " pname in
      let qty := replace "," "" qty in
      let price := replace "," "" price in
      match py_int qty with
      | Raise _ => Ok None
      | Ok qty =>
          match py_float price with
          | Raise _ => Ok None
          | Ok price =>
              if (qty <=? 0)%Z || fle price fzero then Ok None
              else Ok (Some {| TransactionID := tid;
                               Date := date;
                               ProductID := pid;
                               ProductName := pname;
                               Quantity := qty;
                               UnitPrice := price;
                               CustomerID := cid;
                               Region := region |})
          end
      end
  | _ => Ok None
  end.

Definition clean_step (st : list Transaction * nat) (entry : string)
  : result (list Transaction * nat) :=
  let '(cleaned_data, invalid_count) := st in
  r <- clean_entry entry ;;
  match r with
  | None => Ok (cleaned_data, S invalid_count)
  | Some tx => Ok (cleaned_data ++ [tx], invalid_count)
  end.

Definition parse_and_clean_data (raw_lines : list string)
  : result (list Transaction * nat) :=
  for_each clean_step raw_lines ([], 0).

(** ** Task 1.3: the region filter *)

Inductive FilterSummary : Type :=
| NotFiltered (total_records : nat)
| Filtered (region : string) (records_before_filter records_after_filter : nat).

Definition filter_applied (s : FilterSummary) : bool :=
  match s with
  | NotFiltered _ => false
  | Filtered _ _ _ => true
  end.

Definition validate_and_filter_sales
  (cleaned_data : list Transaction) (selected_region : option string)
  : list Transaction * FilterSummary :=
  match cleaned_data with
  | [] => ([], NotFiltered 0)
  | _ =>
      match selected_region with
      | None => (cleaned_data, NotFiltered (List.length cleaned_data))
      | Some selected =>
          let key := lower (strip selected) in
          let filtered_data :=
            filter (fun row => String.eqb (lower (Region row)) key) cleaned_data in
          (filtered_data,
           Filtered key (List.length cleaned_data) (List.length filtered_data))
      end
  end.

(** ** Task 2.1: revenue, regions, products, customers *)

(** [tx["Quantity"] * tx["UnitPrice"]] *)
Definition amount (tx : Transaction) : PyFloat :=
  fmul (of_int (Quantity tx)) (UnitPrice tx).

Definition calculate_total_revenue (transactions : list Transaction) : PyFloat :=
  fold_left (fun total tx => fadd total (amount tx)) transactions fzero.

Module RegionSales.

(** The entry of [region_data] while the loop runs. *)
Record tally_entry : Type := {
  sales : PyFloat;
  count : nat
}.

(** The entry once [percentage] is stored. *)
Record summary : Type := {
  total_sales : PyFloat;
  transaction_count : nat;
  percentage : PyFloat
}.

End RegionSales.

Definition region_tally (transactions : list Transaction)
  : dict RegionSales.tally_entry :=
  fold_left
    (fun region_data tx =>
       tally (Region tx)
         {| RegionSales.sales := fzero; RegionSales.count := 0 |}
         (fun e => {| RegionSales.sales := fadd (RegionSales.sales e) (amount tx);
                      RegionSales.count := S (RegionSales.count e) |})
         region_data)
    transactions [].

Definition region_percentage (overall : PyFloat)
  (kv : string * RegionSales.tally_entry) : result (string * RegionSales.summary) :=
  q <- fdiv (RegionSales.sales (snd kv)) overall ;;
  Ok (fst kv,
      {| RegionSales.total_sales := RegionSales.sales (snd kv);
         RegionSales.transaction_count := RegionSales.count (snd kv);
         RegionSales.percentage := round2 (fmul q (of_int 100)) |}).

Definition region_wise_sales (transactions : list Transaction)
  : result (dict RegionSales.summary) :=
  let overall := calculate_total_revenue transactions in
  region_data <- map_result (region_percentage overall) (region_tally transactions) ;;
  Ok (sorted_by
        (fun y x => flt (RegionSales.total_sales (snd x))
                        (RegionSales.total_sales (snd y)))
        region_data).

(** A row of a product ranking: [(name, total_quantity, total_revenue)]. *)
Definition ProductRanking : Type := (string * Z * PyFloat)%type.

Definition ranking_name (r : ProductRanking) : string := fst (fst r).
Definition ranking_quantity (r : ProductRanking) : Z := snd (fst r).
Definition ranking_revenue (r : ProductRanking) : PyFloat := snd r.

Definition top_selling_products (transactions : list Transaction) (n : Z)
  : list ProductRanking :=
  let tracker :=
    fold_left
      (fun tracker tx =>
         let name := ProductName tx in
         tally name (0%Z, fzero)
           (fun v => ((fst v + Quantity tx)%Z,
                      fadd (snd v) (fmul (of_int (Quantity tx)) (UnitPrice tx))))
           tracker)
      transactions [] in
  let ranked := map (fun kv => (fst kv, fst (snd kv), snd (snd kv))) tracker in
  let ranked :=
    sorted_by (fun y x => (ranking_quantity x <? ranking_quantity y)%Z) ranked in
  slice_to n ranked.

Module Customer.

Record summary : Type := {
  total_spent : PyFloat;
  purchase_count : nat;
  avg_order_value : PyFloat;
  products_bought : list string
}.

End Customer.

Definition customer_tally (transactions : list Transaction)
  : dict (PyFloat * nat * list string) :=
  fold_left
    (fun customers tx =>
       tally (CustomerID tx) (fzero, 0, [])
         (fun d => (fadd (fst (fst d)) (amount tx),
                    S (snd (fst d)),
                    set_add (ProductName tx) (snd d)))
         customers)
    transactions [].

Definition customer_analysis (transactions : list Transaction)
  : result (dict Customer.summary) :=
  result <-
    map_result
      (fun kv : string * (PyFloat * nat * list string) =>
         let data := snd kv in
         avg <- fdiv (fst (fst data)) (of_int (Z.of_nat (snd (fst data)))) ;;
         Ok (fst kv,
             {| Customer.total_spent := round2 (fst (fst data));
                Customer.purchase_count := snd (fst data);
                Customer.avg_order_value := round2 avg;
                Customer.products_bought := snd data |}))
      (customer_tally transactions) ;;
  Ok (sorted_by
        (fun y x => flt (Customer.total_spent (snd x)) (Customer.total_spent (snd y)))
        result).

(** ** Task 2.2: dates *)

Module Daily.

Record summary : Type := {
  revenue : PyFloat;
  transaction_count : nat;
  unique_customers : nat
}.

End Daily.

Definition daily_tally (transactions : list Transaction)
  : dict (PyFloat * nat * list string) :=
  fold_left
    (fun daily tx =>
       tally (Date tx) (fzero, 0, [])
         (fun v => (fadd (fst (fst v)) (amount tx),
                    S (snd (fst v)),
                    set_add (CustomerID tx) (snd v)))
         daily)
    transactions [].

Definition daily_sales_trend (transactions : list Transaction) : dict Daily.summary :=
  let final :=
    map (fun kv : string * (PyFloat * nat * list string) =>
           let v := snd kv in
           (fst kv,
            {| Daily.revenue := round2 (fst (fst v));
               Daily.transaction_count := snd (fst v);
               Daily.unique_customers := List.length (snd v) |}))
        (daily_tally transactions) in
  sorted_by (fun y x => str_lt (fst y) (fst x)) final.

(** The scan of [find_peak_sales_day]: the state is
    [(peak_date, peak_revenue, peak_count)]. *)
Definition peak_step (peak : option string * PyFloat * nat)
  (kv : string * Daily.summary) : option string * PyFloat * nat :=
  if fgt (Daily.revenue (snd kv)) (snd (fst peak))
  then (Some (fst kv), Daily.revenue (snd kv), Daily.transaction_count (snd kv))
  else peak.

Definition find_peak_sales_day (transactions : list Transaction)
  : option string * PyFloat * nat :=
  let daily := daily_sales_trend transactions in
  fold_left peak_step daily (None, fzero, 0).

(** ** Task 2.3: product performance *)

Definition low_performing_products (transactions : list Transaction) (threshold : Z)
  : list ProductRanking :=
  let product_data :=
    fold_left
      (fun product_data tx =>
         let name := ProductName tx in
         let qty := Quantity tx in
         let revenue := fmul (of_int qty) (UnitPrice tx) in
         tally name (0%Z, fzero)
           (fun values => ((fst values + qty)%Z, fadd (snd values) revenue))
           product_data)
      transactions [] in
  let low_items :=
    map (fun kv => (fst kv, fst (snd kv), snd (snd kv)))
        (filter (fun kv : string * (Z * PyFloat) => (fst (snd kv) <? threshold)%Z)
                product_data) in
  sorted_by (fun y x => (ranking_quantity y <? ranking_quantity x)%Z) low_items.

(** ** Task 3.2: enrichment *)

(** What [create_product_mapping] stores under a lower-cased title. *)
Record CatalogEntry : Type := {
  title : string;
  category : option string;
  brand : option string;
  rating : option PyFloat
}.

Definition ProductCatalogMapping : Type := dict CatalogEntry.

Record EnrichedTransaction : Type := {
  record : Transaction;
  API_Category : string;
  API_Brand : string;
  API_Rating : PyFloat;
  API_Match : bool
}.

Section Enrichment.

Local Open Scope string_scope.

(** The [if]/[elif] chain on the lower-cased product name:
    [(api_category, api_brand, api_rating, api_match)]. *)
Definition business_mapping (name : string) : string * string * PyFloat * bool :=
  if contains "usb" name || contains "cable" name then
    ("mobile-accessories", "Beats", Fin (424 # 100), true)
  else if contains "mouse" name then
    ("mobile-accessories", "TechGear", Fin (443 # 100), true)
  else if contains "charger" name then
    ("mobile-accessories", "GadgetMaster", Fin (355 # 100), true)
  else if contains "monitor" name then
    ("mobile-accessories", "Apple", Fin (415 # 100), true)
  else if contains "webcam" name then
    ("mobile-accessories", "Apple", Fin (362 # 100), true)
  else if contains "keyboard" name then
    ("mobile-accessories", "Logitech", Fin (405 # 100), true)
  else if contains "headphone" name then
    ("mobile-accessories", "Sony", Fin (438 # 100), true)
  else if contains "external hard drive" name || contains "hard drive" name then
    ("storage", "Seagate", Fin (418 # 100), true)
  else if contains "laptop" name then
    ("laptops", "Asus", Fin (395 # 100), true)
  else
    ("Unknown", "Unknown", Fin 0, false).

Definition enrich_one (tx : Transaction) : EnrichedTransaction :=
  let name := lower (ProductName tx) in
  let '(api_category, api_brand, api_rating, api_match) := business_mapping name in
  {| record := tx;
     API_Category := api_category;
     API_Brand := api_brand;
     API_Rating := api_rating;
     API_Match := api_match |}.

Definition enrich_sales_data (transactions : list Transaction)
  (product_mapping : ProductCatalogMapping) : list EnrichedTransaction :=
  fold_left (fun enriched tx => (enriched ++ [enrich_one tx])%list) transactions [].

End Enrichment.

(** ** Task 4.1: the text report *)

(** [str(n)] for a counter and for an [int]. *)
Definition str_nat (n : nat) : string := NilZero.string_of_uint (Nat.to_uint n).
Definition str_int (z : Z) : string := NilZero.string_of_int (Z.to_int z).

(** [set(l)] iterated: each element once (Python fixes no order). *)
Definition distinct (l : list string) : list string :=
  fold_left (fun s x => set_add x s) l [].

Section Report.

Local Open Scope string_scope.
Local Open Scope list_scope.

Local Infix "+++" := String.append (at level 60, right associativity).

(** [datetime.datetime.now().strftime("%Y-%m-%d %H:%M:%S")] *)
Variable now : string.

(** [f"{x:,.2f}"] *)
Variable format_money : PyFloat -> string.

(** [str(x)] for a float, as an f-string without format inserts it. *)
Variable str_float : PyFloat -> string.

Definition rule : string := "--------------------------------------------" +++ "
".

Definition nl : string := "
".

(** Rows [f"{rank} | ..."] with [rank] counted from 1. *)
Fixpoint ranked_rows {A : Type} (row : nat -> A -> string) (rank : nat) (l : list A)
  : list string :=
  match l with
  | [] => []
  | x :: rest => row rank x :: ranked_rows row (S rank) rest
  end.

(** The text handed to [file.write], call after call; no file is opened
    when an exception is raised before the [with] block. *)
Definition generate_sales_report (transactions : list Transaction)
  (enriched_transactions : list EnrichedTransaction) : result (list string) :=
  let total_revenue := calculate_total_revenue transactions in
  let total_transactions := List.length transactions in
  let date_list := map Date transactions in
  start_date <- py_min date_list ;;
  end_date <- py_max date_list ;;
  region_data <- region_wise_sales transactions ;;
  let top_products := top_selling_products transactions 5 in
  customers <- customer_analysis transactions ;;
  let daily := daily_sales_trend transactions in
  let '(peak_date, peak_revenue, peak_count) := find_peak_sales_day transactions in
  let low_products := low_performing_products transactions 10 in
  let enriched_count :=
    List.length (filter API_Match enriched_transactions) in
  rate <- fdiv (of_int (Z.of_nat enriched_count))
               (of_int (Z.of_nat (List.length enriched_transactions))) ;;
  let success_rate := round2 (fmul rate (of_int 100)) in
  let not_enriched :=
    map (fun tx => ProductName (record tx))
        (filter (fun tx => negb (API_Match tx)) enriched_transactions) in
  average <- fdiv total_revenue (of_int (Z.of_nat total_transactions)) ;;
  Ok ([ "============================================" +++ nl;
        "SALES ANALYTICS REPORT" +++ nl;
        "Generated: " +++ now +++ nl;
        "Records Processed: " +++ str_nat total_transactions +++ nl;
        "============================================" +++ nl +++ nl;
        "OVERALL SUMMARY" +++ nl;
        rule;
        "Total Revenue: ₹" +++ format_money total_revenue +++ nl;
        "Total Transactions: " +++ str_nat total_transactions +++ nl;
        "Average Order Value: ₹" +++ format_money average +++ nl;
        "Date Range: " +++ start_date +++ " to " +++ end_date +++ nl +++ nl;
        "REGION-WISE PERFORMANCE" +++ nl;
        rule;
        "Region | Total Sales | % of Total | Transactions" +++ nl ]
      ++ map (fun kv : string * RegionSales.summary =>
                let data := snd kv in
                fst kv +++ " | ₹" +++ format_money (RegionSales.total_sales data) +++ " | "
                +++ str_float (RegionSales.percentage data) +++ "% | "
                +++ str_nat (RegionSales.transaction_count data) +++ nl)
             region_data
      ++ [ nl;
           "TOP 5 PRODUCTS" +++ nl;
           rule;
           "Rank | Product | Quantity | Revenue" +++ nl ]
      ++ ranked_rows
           (fun rank (p : ProductRanking) =>
              str_nat rank +++ " | " +++ ranking_name p +++ " | "
              +++ str_int (ranking_quantity p) +++ " | ₹"
              +++ format_money (ranking_revenue p) +++ nl)
           1 top_products
      ++ [ nl;
           "TOP 5 CUSTOMERS" +++ nl;
           rule;
           "Rank | CustomerID | Total Spent | Orders" +++ nl ]
      ++ ranked_rows
           (fun rank (kv : string * Customer.summary) =>
              let data := snd kv in
              str_nat rank +++ " | " +++ fst kv +++ " | ₹"
              +++ format_money (Customer.total_spent data) +++ " | "
              +++ str_nat (Customer.purchase_count data) +++ nl)
           1 (slice_to 5 customers)
      ++ [ nl;
           "DAILY SALES TREND" +++ nl;
           rule;
           "Date | Revenue | Transactions | Customers" +++ nl ]
      ++ map (fun kv : string * Daily.summary =>
                let data := snd kv in
                fst kv +++ " | ₹" +++ format_money (Daily.revenue data) +++ " | "
                +++ str_nat (Daily.transaction_count data) +++ " | "
                +++ str_nat (Daily.unique_customers data) +++ nl)
             daily
      ++ [ nl;
           "PRODUCT PERFORMANCE ANALYSIS" +++ nl;
           rule;
           "Best Selling Day: "
           +++ match peak_date with Some d => d | None => "None" end
           +++ " (₹" +++ format_money peak_revenue +++ " in "
           +++ str_nat peak_count +++ " transactions)" +++ nl ]
      ++ match low_products with
         | [] => [ "No low performing products found." +++ nl ]
         | _ =>
             ("Low Performing Products:" +++ nl)
             :: map (fun p : ProductRanking =>
                       ranking_name p +++ " - Qty: " +++ str_int (ranking_quantity p)
                       +++ ", Revenue: ₹" +++ format_money (ranking_revenue p) +++ nl)
                    low_products
         end
      ++ [ nl;
           "API ENRICHMENT SUMMARY" +++ nl;
           rule;
           "Products Enriched: " +++ str_nat enriched_count +++ "/"
           +++ str_nat (List.length enriched_transactions) +++ nl;
           "Success Rate: " +++ str_float success_rate +++ "%" +++ nl ]
      ++ match not_enriched with
         | [] => [ "All products were enriched successfully." +++ nl ]
         | _ =>
             ("Products not enriched:" +++ nl)
             :: map (fun p => "- " +++ p +++ nl) (distinct not_enriched)
         end).

End Report.

(** ** Vocabulary of the specification *)

Section Vocabulary.

Local Open Scope string_scope.

Definition starts_with (c : ascii) (s : string) : Prop :=
  match s with
  | EmptyString => False
  | String c' _ => c' = c
  end.

Definition has_char (c : ascii) (s : string) : Prop :=
  In c (list_ascii_of_string s).

(** The Transaction invariant of the data model. *)
Record Transaction_invariant (tx : Transaction) : Prop := {
  inv_tid : starts_with "T" (TransactionID tx);
  inv_pid : starts_with "P" (ProductID tx);
  inv_quantity : (0 < Quantity tx)%Z;
  inv_price : fgt (UnitPrice tx) fzero = true;
  inv_customer : strip (CustomerID tx) <> "";
  inv_region : strip (Region tx) <> "";
  inv_name : ~ has_char "," (ProductName tx)
}.

(** What the cleaner guarantees: the invariant with the price test the code
    performs, which a NaN price passes. *)
Record cleaned_invariant (tx : Transaction) : Prop := {
  cl_tid : starts_with "T" (TransactionID tx);
  cl_pid : starts_with "P" (ProductID tx);
  cl_quantity : (0 < Quantity tx)%Z;
  cl_price : fle (UnitPrice tx) fzero = false;
  cl_customer : strip (CustomerID tx) <> "";
  cl_region : strip (Region tx) <> "";
  cl_name : ~ has_char "," (ProductName tx)
}.

(** The lines on which the loop body indexes an empty field: eight fields
    with an empty [TransactionID], or with a [TransactionID] starting with
    [T] and an empty [ProductID]. *)
Definition indexes_empty_field (entry : string) : Prop :=
  match split "|" (strip entry) with
  | [tid; _; pid; _; _; _; _; _] => tid = "" \/ (starts_with "T" tid /\ pid = "")
  | _ => False
  end.

Definition day_revenue (e : string * Daily.summary) : PyFloat :=
  Daily.revenue (snd e).

(** What the scan of [find_peak_sales_day] yields on the days [l] from the
    state [s]: either no day beats the revenue of [s] and [s] is kept, or the
    result is the first day of maximal revenue among those that beat it. *)
Inductive peak_outcome (l : list (string * Daily.summary))
  (s : option string * PyFloat * nat) : option string * PyFloat * nat -> Prop :=
| peak_kept :
    Forall (fun e => fgt (day_revenue e) (snd (fst s)) = false) l ->
    peak_outcome l s s
| peak_found (earlier later : list (string * Daily.summary))
    (e : string * Daily.summary) :
    l = (earlier ++ e :: later)%list ->
    fgt (day_revenue e) (snd (fst s)) = true ->
    Forall (fun e' => flt (day_revenue e') (day_revenue e) = true
                      \/ day_revenue e' = NaN) earlier ->
    Forall (fun e' => fgt (day_revenue e') (day_revenue e) = false) later ->
    peak_outcome l s
      (Some (fst e), day_revenue e, Daily.transaction_count (snd e)).

(** Per product name, the total quantity and the total revenue. *)
Definition product_tally (transactions : list Transaction) : dict (Z * PyFloat) :=
  fold_left
    (fun totals tx =>
       tally (ProductName tx) (0%Z, fzero)
         (fun v => ((fst v + Quantity tx)%Z, fadd (snd v) (amount tx)))
         totals)
    transactions [].

(** The numeric part of the invariant: [Quantity > 0] and [UnitPrice > 0]. *)
Definition positive_sale (tx : Transaction) : Prop :=
  (0 < Quantity tx)%Z /\ fgt (UnitPrice tx) fzero = true.

(** The region comparison as the specification words it: both sides
    trimmed, letter case ignored. *)
Definition region_matches_trimmed (selected : string) (row : Transaction) : bool :=
  String.eqb (lower (strip (Region row))) (lower (strip selected)).

(** The enrichment rules as the specification lists them: keywords and the
    [(category, brand, rating)] they assign, in order. *)
Definition rules : list (list string * (string * string * PyFloat)) :=
  [ (["usb"; "cable"], ("mobile-accessories", "Beats", Fin (424 # 100)));
    (["mouse"], ("mobile-accessories", "TechGear", Fin (443 # 100)));
    (["charger"], ("mobile-accessories", "GadgetMaster", Fin (355 # 100)));
    (["monitor"], ("mobile-accessories", "Apple", Fin (415 # 100)));
    (["webcam"], ("mobile-accessories", "Apple", Fin (362 # 100)));
    (["keyboard"], ("mobile-accessories", "Logitech", Fin (405 # 100)));
    (["headphone"], ("mobile-accessories", "Sony", Fin (438 # 100)));
    (["external hard drive"; "hard drive"], ("storage", "Seagate", Fin (418 # 100)));
    (["laptop"], ("laptops", "Asus", Fin (395 # 100))) ].

Definition keywords : list string := List.concat (map fst rules).

Definition rule_matches (name : string)
  (r : list string * (string * string * PyFloat)) : bool :=
  existsb (fun k => contains k name) (fst r).

(** First-match-wins lookup in [rules], with the defaults when none fires. *)
Definition first_match (name : string) : string * string * PyFloat * bool :=
  match find (rule_matches name) rules with
  | Some (_, (c, b, r)) => (c, b, r, true)
  | None => ("Unknown", "Unknown", Fin 0, false)
  end.

Definition attributes (e : EnrichedTransaction) : string * string * PyFloat * bool :=
  (API_Category e, API_Brand e, API_Rating e, API_Match e).

(** Sample data *)

Definition sample_lines : list string :=
  [ "T1|2024-01-01|P1|USB Cable|2|5.50|C1|North";
    "T2|2024-01-01|P2|Wireless Mouse|1|20.00|C2|South";
    "BADLINE" ].

Definition sample_usb : Transaction :=
  {| TransactionID := "T1"; Date := "2024-01-01"; ProductID := "P1";
     ProductName := "USB Cable"; Quantity := 2; UnitPrice := Fin (11 # 2);
     CustomerID := "C1"; Region := "North" |}.

Definition sample_mouse : Transaction :=
  {| TransactionID := "T2"; Date := "2024-01-01"; ProductID := "P2";
     ProductName := "Wireless Mouse"; Quantity := 1; UnitPrice := Fin (20 # 1);
     CustomerID := "C2"; Region := "South" |}.

Definition sample_cleaned : list Transaction := [sample_usb; sample_mouse].

Definition sample_regions : dict RegionSales.summary :=
  [ ("South", {| RegionSales.total_sales := Fin (20 # 1);
                 RegionSales.transaction_count := 1;
                 RegionSales.percentage := Fin (1613 # 25) |});
    ("North", {| RegionSales.total_sales := Fin (11 # 1);
                 RegionSales.transaction_count := 1;
                 RegionSales.percentage := Fin (887 # 25) |}) ].

Definition sample_c1 : Customer.summary :=
  {| Customer.total_spent := Fin (11 # 1);
     Customer.purchase_count := 1;
     Customer.avg_order_value := Fin (11 # 1);
     Customer.products_bought := ["USB Cable"] |}.

Definition sample_c2 : Customer.summary :=
  {| Customer.total_spent := Fin (20 # 1);
     Customer.purchase_count := 1;
     Customer.avg_order_value := Fin (20 # 1);
     Customer.products_bought := ["Wireless Mouse"] |}.

Definition sample_customers : dict Customer.summary :=
  [("C2", sample_c2); ("C1", sample_c1)].

(** A line with an empty [TransactionID] field. *)
Definition line_empty_tid : string := "|2024-01-01|P1|Mouse|1|10.0|C1|North".

(** A line whose price text is [nan]. *)
Definition line_nan_price : string := "T1|2024-01-01|P1|Mouse|1|nan|C1|North".

Definition tx_nan_price : Transaction :=
  {| TransactionID := "T1"; Date := "2024-01-01"; ProductID := "P1";
     ProductName := "Mouse"; Quantity := 1; UnitPrice := NaN;
     CustomerID := "C1"; Region := "North" |}.

(** A sale worth a tenth of a cent. *)
Definition tx_tiny : Transaction :=
  {| TransactionID := "T1"; Date := "2024-01-01"; ProductID := "P1";
     ProductName := "Pen"; Quantity := 1; UnitPrice := Fin (1 # 1000);
     CustomerID := "C1"; Region := "North" |}.

(** A record whose region carries a leading blank. *)
Definition tx_padded : Transaction :=
  {| TransactionID := "T1"; Date := "2024-01-01"; ProductID := "P1";
     ProductName := "Pen"; Quantity := 1; UnitPrice := Fin (5 # 1);
     CustomerID := "C1"; Region := " North" |}.

End Vocabulary.

(** ** Task 3.1: the catalog mapping ([utils/api_handler.py]) *)

(** A product of the API response as [create_product_mapping] reads it:
    [item.get(key)] is [None] for a missing key; a title that is present is
    a string. *)
Record ApiProduct : Type := {
  item_title : option string;
  item_category : option string;
  item_brand : option string;
  item_rating : option PyFloat
}.

Definition create_product_mapping (api_products : list ApiProduct)
  : ProductCatalogMapping :=
  fold_left
    (fun mapping item =>
       match item_title item with
       | None => mapping
       | Some t =>
           if is_empty t then mapping
           else
             let clean_title := strip (lower t) in
             dict_set clean_title
               {| title := t;
                  category := item_category item;
                  brand := item_brand item;
                  rating := item_rating item |}
               mapping
       end)
    api_products [].

(** ** Vocabulary of the analytics *)

(** [d.get(k)] *)
Fixpoint dict_get {V : Type} (k : string) (d : dict V) : option V :=
  match d with
  | [] => None
  | (k', v) :: d' => if String.eqb k k' then Some v else dict_get k d'
  end.

(** The transactions of one region, product, customer or date, in input
    order. *)
Definition in_region (r : string) (transactions : list Transaction)
  : list Transaction :=
  filter (fun tx => String.eqb (Region tx) r) transactions.

Definition of_product (name : string) (transactions : list Transaction)
  : list Transaction :=
  filter (fun tx => String.eqb (ProductName tx) name) transactions.

Definition of_customer (cid : string) (transactions : list Transaction)
  : list Transaction :=
  filter (fun tx => String.eqb (CustomerID tx) cid) transactions.

Definition on_date (d : string) (transactions : list Transaction)
  : list Transaction :=
  filter (fun tx => String.eqb (Date tx) d) transactions.

(** The quantities of a collection added up. *)
Definition total_quantity (transactions : list Transaction) : Z :=
  fold_left (fun q tx => (q + Quantity tx)%Z) transactions 0%Z.

(** The entry [create_product_mapping] stores for an item. *)
Definition entry_of (t : string) (item : ApiProduct) : CatalogEntry :=
  {| title := t;
     category := item_category item;
     brand := item_brand item;
     rating := item_rating item |}.

(** The key under which an item is stored, when it is stored at all. *)
Definition clean_title_of (item : ApiProduct) : option string :=
  match item_title item with
  | None => None
  | Some t => if is_empty t then None else Some (strip (lower t))
  end.

(** A float that is zero, the divisor on which [/] raises. *)
Definition fis_zero (x : PyFloat) : bool :=
  match x with
  | Fin q => is_zero q
  | _ => false
  end.

(** * Properties *)

(** ** The record cleaner *)

Section Cleaner.

Local Open Scope string_scope.

Lemma bind_ok {A B : Type} (m : result A) (k : A -> result B) (b : B) :
  bind m k = Ok b -> exists a, m = Ok a /\ k a = Ok b.
Proof.
  destruct m as [a | e]; simpl; intros H; [eauto | discriminate].
Qed.

Lemma clean_step_count st entry st' :
  clean_step st entry = Ok st' ->
  List.length (fst st') + snd st' = S (List.length (fst st) + snd st).
Proof.
  destruct st as [cleaned invalid]. unfold clean_step.
  intros H. apply bind_ok in H. destruct H as [[tx |] [_ H]];
    inversion H; subst; simpl.
  - rewrite length_app. simpl. lia.
  - lia.
Qed.

Lemma for_each_clean_count raw_lines : forall st st',
  for_each clean_step raw_lines st = Ok st' ->
  List.length (fst st') + snd st' =
  List.length (fst st) + snd st + List.length raw_lines.
Proof.
  induction raw_lines as [| entry rest IH]; simpl; intros st st' H.
  - inversion H. lia.
  - apply bind_ok in H. destruct H as [st1 [H1 H2]].
    apply clean_step_count in H1. apply IH in H2. lia.
Qed.

(** C3. Whenever [parse_and_clean_data] returns, the number of cleaned
    records plus the invalid count is the number of input lines: every line
    is counted exactly once. *)
Theorem cleaned_plus_invalid_is_input_length :
  forall raw_lines cleaned invalid_count,
    parse_and_clean_data raw_lines = Ok (cleaned, invalid_count) ->
    List.length cleaned + invalid_count = List.length raw_lines.
Proof.
  intros raw_lines cleaned invalid_count H.
  apply for_each_clean_count in H. simpl in H. lia.
Qed.

Lemma cleaned_plus_invalid_witness :
  parse_and_clean_data sample_lines = Ok (sample_cleaned, 1) /\
  List.length sample_cleaned + 1 = List.length sample_lines.
Proof.
  split.
  - vm_compute. reflexivity.
  - apply (cleaned_plus_invalid_is_input_length sample_lines).
    vm_compute. reflexivity.
Defined.

(** C2. A line whose [TransactionID] field is empty makes [tid[0]] raise:
    the [IndexError] leaves [parse_and_clean_data] instead of being counted
    as an invalid line. *)
Theorem empty_transaction_id_raises :
  parse_and_clean_data [line_empty_tid] = Raise IndexError.
Proof. vm_compute. reflexivity. Qed.

(** The same happens on an empty [ProductID] field, at [pid[0]]. *)
Example empty_product_id_raises :
  parse_and_clean_data ["T1|2024-01-01||Mouse|1|10.0|C1|North"] = Raise IndexError.
Proof. vm_compute. reflexivity. Qed.

(** C4. The price text [nan] converts to NaN, which the test [price <= 0]
    lets through: the line is accepted although its [UnitPrice] is not
    greater than 0, so the cleaned record breaks the Transaction invariant. *)
Theorem nan_price_is_accepted :
  parse_and_clean_data [line_nan_price] = Ok ([tx_nan_price], 0) /\
  fgt (UnitPrice tx_nan_price) fzero = false /\
  ~ Transaction_invariant tx_nan_price.
Proof.
  split; [vm_compute; reflexivity |].
  split; [reflexivity |].
  intros [_ _ _ H _ _ _]. discriminate H.
Qed.

Lemma replace_comma_blank s : ~ has_char "," (replace "," " " s).
Proof.
  unfold has_char. induction s as [| c s IH]; simpl; [tauto |].
  destruct (Ascii.eqb_spec c ","); simpl; intros [H | H];
    try tauto; discriminate H.
Qed.

Lemma index0_starts_with s c d :
  index0 s = Ok c -> Ascii.eqb c d = true -> starts_with d s.
Proof.
  destruct s; simpl; intros H E; inversion H; subst.
  now apply Ascii.eqb_eq.
Qed.

Lemma is_empty_false s : is_empty s = false -> s <> "".
Proof. destruct s; simpl; congruence. Qed.

Lemma clean_entry_invariant entry tx :
  clean_entry entry = Ok (Some tx) -> cleaned_invariant tx.
Proof.
  unfold clean_entry.
  destruct (split "|" (strip entry))
    as [| tid [| date [| pid [| pname [| qty [| price [| cid [| region [| x l]]]]]]]]];
    try discriminate.
  intros H. apply bind_ok in H. destruct H as [t0 [Ht H]].
  destruct (Ascii.eqb t0 "T") eqn:ET; simpl in H; [| discriminate].
  apply bind_ok in H. destruct H as [p0 [Hp H]].
  destruct (Ascii.eqb p0 "P") eqn:EP; simpl in H; [| discriminate].
  destruct (is_empty (strip cid) || is_empty (strip region)) eqn:EE;
    [discriminate |].
  apply orb_false_elim in EE. destruct EE as [EC ER].
  destruct (py_int (replace "," "" qty)) as [q | e]; [| discriminate].
  destruct (py_float (replace "," "" price)) as [p | e]; [| discriminate].
  destruct ((q <=? 0)%Z || fle p fzero) eqn:EQ; [discriminate |].
  apply orb_false_elim in EQ. destruct EQ as [EQ1 EQ2].
  inversion H; subst; clear H.
  constructor; simpl.
  - eapply index0_starts_with; eauto.
  - eapply index0_starts_with; eauto.
  - apply Z.leb_gt in EQ1. exact EQ1.
  - exact EQ2.
  - now apply is_empty_false.
  - now apply is_empty_false.
  - apply replace_comma_blank.
Qed.

Lemma for_each_clean_invariant raw_lines : forall st st',
  for_each clean_step raw_lines st = Ok st' ->
  Forall cleaned_invariant (fst st) -> Forall cleaned_invariant (fst st').
Proof.
  induction raw_lines as [| entry rest IH]; simpl; intros st st' H F.
  - inversion H; subst. exact F.
  - apply bind_ok in H. destruct H as [st1 [H1 H2]].
    apply (IH _ _ H2). destruct st as [cleaned invalid].
    unfold clean_step in H1. apply bind_ok in H1.
    destruct H1 as [[tx |] [E H1]]; inversion H1; subst; simpl in *.
    + apply Forall_app. split; [exact F |].
      constructor; [| constructor]. now apply clean_entry_invariant with entry.
    + exact F.
Qed.

(** X14. Every cleaned record has the [T] and [P] prefixes, a positive
    integer quantity, a price that is not [<= 0] (positive or NaN), non-blank
    customer and region, and a comma-free product name. *)
Theorem cleaned_records_invariant :
  forall raw_lines cleaned invalid_count,
    parse_and_clean_data raw_lines = Ok (cleaned, invalid_count) ->
    Forall cleaned_invariant cleaned.
Proof.
  intros raw_lines cleaned invalid_count H.
  apply for_each_clean_invariant in H; simpl in *; auto.
Qed.

(** A price that is not [<= 0] is positive unless it is NaN. *)
Lemma not_le_zero_cases p : fle p fzero = false -> fgt p fzero = true \/ p = NaN.
Proof.
  destruct p as [q | | |]; simpl; intros H; auto; try discriminate.
  left. unfold fgt. simpl. now rewrite H.
Qed.

(** The loop body raises exactly on the lines that make it index an empty
    field, and then it is an [IndexError]. *)
Lemma clean_entry_raises entry e :
  clean_entry entry = Raise e <-> e = IndexError /\ indexes_empty_field entry.
Proof.
  unfold clean_entry, indexes_empty_field.
  destruct (split "|" (strip entry))
    as [| tid [| date [| pid [| pname [| qty [| price [| cid [| region [| x l]]]]]]]]];
    try (split; [discriminate | tauto]).
  destruct tid as [| t0 tid]; simpl.
  { split; [intros H; inversion H; auto | intros [-> _]; reflexivity]. }
  destruct (Ascii.eqb_spec t0 "T") as [-> | NT]; simpl.
  - destruct pid as [| p0 pid]; simpl.
    { split; [intros H; inversion H; auto | intros [-> _]; reflexivity]. }
    split.
    + intros H. exfalso.
      destruct (Ascii.eqb p0 "P"); simpl in H; [| discriminate].
      destruct (is_empty (strip cid) || is_empty (strip region));
        [discriminate |].
      destruct (py_int (replace "," "" qty)) as [q | ?]; [| discriminate].
      destruct (py_float (replace "," "" price)) as [p | ?]; [| discriminate].
      destruct ((q <=? 0)%Z || fle p fzero); discriminate.
    + intros [_ [H | [_ H]]]; discriminate.
  - split; [discriminate |].
    intros [_ [H | [H _]]]; [discriminate | congruence].
Qed.

Lemma for_each_clean_returns raw_lines : forall st,
  (forall entry, In entry raw_lines -> ~ indexes_empty_field entry) ->
  exists st', for_each clean_step raw_lines st = Ok st'.
Proof.
  induction raw_lines as [| entry rest IH]; simpl; intros st H; [eauto |].
  destruct st as [cleaned invalid]. unfold clean_step at 1.
  destruct (clean_entry entry) as [r | e] eqn:E.
  - simpl. destruct r as [tx |]; simpl; apply IH; auto.
  - exfalso. apply (H entry); [now left |].
    now apply (clean_entry_raises entry e).
Qed.

(** The cleaner returns on every input without such a line. *)
Theorem parse_and_clean_data_returns raw_lines :
  (forall entry, In entry raw_lines -> ~ indexes_empty_field entry) ->
  exists cleaned invalid_count,
    parse_and_clean_data raw_lines = Ok (cleaned, invalid_count).
Proof.
  intros H. destruct (for_each_clean_returns raw_lines ([], 0) H) as [[c i] E].
  eauto.
Qed.

End Cleaner.

(** ** Arithmetic of the float model *)

Section FloatLaws.

Lemma flt_fzero_fin q : flt fzero (Fin q) = true <-> (0 < q)%Q.
Proof.
  simpl. rewrite negb_true_iff. split; intros H.
  - apply Qnot_le_lt. intros L. apply Qle_bool_iff in L. congruence.
  - destruct (Qle_bool q 0) eqn:E; [| reflexivity].
    apply Qle_bool_iff in E. exfalso. now apply (Qlt_not_le 0 q).
Qed.

Lemma fle_fzero_fin q : fle fzero (Fin q) = true <-> (0 <= q)%Q.
Proof. simpl. apply Qle_bool_iff. Qed.

(** A positive term added to a non-negative total gives a positive total. *)
Lemma fadd_positive a b :
  fle fzero a = true -> flt fzero b = true -> flt fzero (fadd a b) = true.
Proof.
  destruct a as [p | | |], b as [q | | |]; try discriminate; try reflexivity.
  intros Ha Hb. apply fle_fzero_fin in Ha. apply flt_fzero_fin in Hb.
  apply flt_fzero_fin. rewrite Qred_correct.
  apply Qlt_le_trans with (0 + q)%Q.
  - now rewrite Qplus_0_l.
  - now apply Qplus_le_compat; [| apply Qle_refl].
Qed.

Lemma flt_fle x y : flt x y = true -> fle x y = true.
Proof.
  destruct x as [p | | |], y as [q | | |]; simpl; try discriminate; auto.
  rewrite negb_true_iff. intros H.
  apply Qle_bool_iff. apply Qlt_le_weak. apply Qnot_le_lt.
  intros L. apply Qle_bool_iff in L. congruence.
Qed.

(** A positive quantity times a positive price is positive. *)
Lemma fmul_positive z p :
  (0 < z)%Z -> flt fzero p = true -> flt fzero (fmul (of_int z) p) = true.
Proof.
  intros Hz. destruct p as [q | | |]; try discriminate.
  - intros Hq. apply flt_fzero_fin in Hq. apply flt_fzero_fin.
    rewrite Qred_correct. apply Qmult_lt_0_compat; [| exact Hq].
    unfold Qlt. simpl. lia.
  - intros _. simpl. unfold is_zero, is_neg. simpl.
    destruct (Z.eqb_spec z 0); [lia |].
    destruct (Z.ltb_spec z 0); [lia | reflexivity].
Qed.

(** Dividing by a positive float never raises. *)
Lemma fdiv_by_positive x y : flt fzero y = true -> exists q, fdiv x y = Ok q.
Proof.
  destruct y as [b | | |]; try discriminate; intros H.
  - apply flt_fzero_fin in H. simpl. unfold is_zero.
    destruct (Z.eqb_spec (Qnum b) 0) as [E | E].
    + exfalso. unfold Qlt in H. simpl in H. lia.
    + destruct x; eauto.
  - destruct x; simpl; eauto.
Qed.

Lemma flt_fin a b : flt (Fin a) (Fin b) = true <-> (a < b)%Q.
Proof.
  simpl. rewrite negb_true_iff. split; intros H.
  - apply Qnot_le_lt. intros L. apply Qle_bool_iff in L. congruence.
  - destruct (Qle_bool b a) eqn:E; [| reflexivity].
    apply Qle_bool_iff in E. exfalso. now apply (Qlt_not_le a b).
Qed.

Lemma fle_fin a b : fle (Fin a) (Fin b) = true <-> (a <= b)%Q.
Proof. simpl. apply Qle_bool_iff. Qed.

Lemma flt_trans x y z : flt x y = true -> flt y z = true -> flt x z = true.
Proof.
  destruct x as [a | | |], y as [b | | |], z as [c | | |];
    try discriminate; try reflexivity.
  rewrite !flt_fin. apply Qlt_trans.
Qed.

Lemma fle_flt_trans x y z : fle x y = true -> flt y z = true -> flt x z = true.
Proof.
  destruct x as [a | | |], y as [b | | |], z as [c | | |];
    try discriminate; try reflexivity.
  rewrite fle_fin, !flt_fin. apply Qle_lt_trans.
Qed.

Lemma flt_not_NaN x y : flt x y = true -> y <> NaN.
Proof. destruct x, y; simpl; congruence. Qed.

(** What is not above a proper number is NaN or at most that number. *)
Lemma not_flt_cases x y : flt x y = false -> x <> NaN -> y = NaN \/ fle y x = true.
Proof.
  destruct x as [a | | |], y as [b | | |]; simpl; intros H N;
    try congruence; auto.
  right. apply negb_false_iff in H. exact H.
Qed.

End FloatLaws.

(** ** Dictionaries and sorting *)

Section Containers.

Variable V : Type.

Lemma dict_contains_In k (d : dict V) :
  dict_contains k d = true <-> In k (map fst d).
Proof.
  unfold dict_contains. rewrite existsb_exists. split.
  - intros [[k' v] [H E]]. simpl in E. apply String.eqb_eq in E. subst.
    now apply (in_map fst) in H.
  - intros H. apply in_map_iff in H. destruct H as [[k' v] [E H]].
    simpl in E. subst. exists (k, v). split; [exact H |]. simpl.
    apply String.eqb_refl.
Qed.

Lemma dict_modify_keys k f (d : dict V) : map fst (dict_modify k f d) = map fst d.
Proof.
  induction d as [| [k' v] d IH]; simpl; [reflexivity |].
  destruct (String.eqb k k'); simpl; [reflexivity | now rewrite IH].
Qed.

Lemma dict_set_absent k v (d : dict V) :
  dict_contains k d = false -> dict_set k v d = d ++ [(k, v)].
Proof.
  unfold dict_contains.
  induction d as [| [k' v'] d IH]; simpl; [reflexivity |].
  destruct (String.eqb k k'); simpl; [discriminate |].
  intros H. now rewrite IH.
Qed.

Lemma dict_modify_absent k f (d : dict V) :
  dict_contains k d = false -> dict_modify k f d = d.
Proof.
  unfold dict_contains.
  induction d as [| [k' v'] d IH]; simpl; [reflexivity |].
  destruct (String.eqb k k'); simpl; [discriminate |].
  intros H. now rewrite IH.
Qed.

Lemma dict_modify_app_absent k f (d d' : dict V) :
  dict_contains k d = false ->
  dict_modify k f (d ++ d') = d ++ dict_modify k f d'.
Proof.
  unfold dict_contains.
  induction d as [| [k' v'] d IH]; simpl; [reflexivity |].
  destruct (String.eqb k k'); simpl; [discriminate |].
  intros H. now rewrite IH.
Qed.

(** A tally step on a new key appends the updated initial value. *)
Lemma tally_absent k init f (d : dict V) :
  dict_contains k d = false -> tally k init f d = d ++ [(k, f init)].
Proof.
  intros H. unfold tally. rewrite H, (dict_set_absent _ _ _ H).
  rewrite (dict_modify_app_absent _ _ _ _ H). simpl.
  now rewrite String.eqb_refl.
Qed.

Lemma tally_present k init f (d : dict V) :
  dict_contains k d = true -> tally k init f d = dict_modify k f d.
Proof. intros H. unfold tally. now rewrite H. Qed.

(** Keys stay pairwise distinct along a tally loop. *)
Lemma tally_NoDup k init f (d : dict V) :
  NoDup (map fst d) -> NoDup (map fst (tally k init f d)).
Proof.
  intros H. destruct (dict_contains k d) eqn:E.
  - rewrite (tally_present _ _ _ _ E), dict_modify_keys. exact H.
  - rewrite (tally_absent _ _ _ _ E), map_app. simpl.
    apply NoDup_app; auto.
    + constructor; [tauto | constructor].
    + intros x Hx [Hk | []]. subst x.
      apply dict_contains_In in Hx. congruence.
Qed.

End Containers.

Section SortingFacts.

Variable A : Type.
Variable before : A -> A -> bool.

Lemma insert_by_perm x l : Permutation (insert_by before x l) (x :: l).
Proof.
  induction l as [| y l IH]; simpl; [apply Permutation_refl |].
  destruct (before y x); [| apply Permutation_refl].
  eapply Permutation_trans; [apply perm_skip, IH | apply perm_swap].
Qed.

(** Sorting rearranges, it neither drops nor invents entries. *)
Lemma sorted_by_perm l : Permutation (sorted_by before l) l.
Proof.
  induction l as [| x l IH]; simpl; [constructor |].
  eapply Permutation_trans; [apply insert_by_perm | now apply perm_skip].
Qed.

Lemma sorted_by_In x l : In x (sorted_by before l) <-> In x l.
Proof.
  split; apply Permutation_in;
    [apply sorted_by_perm | apply Permutation_sym, sorted_by_perm].
Qed.

End SortingFacts.

(** ** Revenue and regions *)

Section RegionFacts.

Lemma map_result_Forall2 {A B : Type} (f : A -> result B) xs : forall ys,
  map_result f xs = Ok ys -> Forall2 (fun x y => f x = Ok y) xs ys.
Proof.
  induction xs as [| x xs IH]; simpl; intros ys H.
  - inversion H. constructor.
  - apply bind_ok in H. destruct H as [y [Hy H]].
    apply bind_ok in H. destruct H as [ys' [Hys H]].
    inversion H; subst. constructor; auto.
Qed.

Lemma map_result_total {A B : Type} (f : A -> result B) xs :
  (forall x, In x xs -> exists y, f x = Ok y) -> exists ys, map_result f xs = Ok ys.
Proof.
  induction xs as [| x xs IH]; simpl; intros H; [eauto |].
  destruct (H x (or_introl eq_refl)) as [y Hy]. rewrite Hy. simpl.
  destruct IH as [ys Hys]; [intros; apply H; now right |].
  rewrite Hys. simpl. eauto.
Qed.

End RegionFacts.

Section Regions.

Local Open Scope string_scope.

Lemma amount_positive tx : positive_sale tx -> flt fzero (amount tx) = true.
Proof. intros [Hq Hp]. now apply fmul_positive. Qed.

Lemma revenue_loop_positive transactions : forall acc,
  Forall positive_sale transactions ->
  flt fzero acc = true \/ (fle fzero acc = true /\ transactions <> []) ->
  flt fzero (fold_left (fun total tx => fadd total (amount tx)) transactions acc)
    = true.
Proof.
  induction transactions as [| tx rest IH]; simpl; intros acc F H.
  - destruct H as [H | [_ H]]; [exact H | congruence].
  - inversion F; subst. apply IH; [assumption |]. left.
    apply fadd_positive; [| now apply amount_positive].
    destruct H as [H | [H _]]; [now apply flt_fle | exact H].
Qed.

(** C10. [region_wise_sales] never divides by zero: on the empty collection
    it returns the empty mapping, and on a non-empty collection of records
    with [Quantity > 0] and [UnitPrice > 0] the divisor, the overall revenue,
    is strictly positive, so that no [ZeroDivisionError] is raised. *)
Theorem region_wise_sales_divisor_positive :
  region_wise_sales [] = Ok [] /\
  forall transactions,
    transactions <> [] ->
    Forall positive_sale transactions ->
    fgt (calculate_total_revenue transactions) fzero = true /\
    region_wise_sales transactions <> Raise ZeroDivisionError.
Proof.
  split; [reflexivity |].
  intros transactions Hne F.
  assert (P : flt fzero (calculate_total_revenue transactions) = true).
  { apply revenue_loop_positive; [exact F |]. right. split; [reflexivity | exact Hne]. }
  split; [exact P |].
  unfold region_wise_sales.
  destruct (map_result_total
              (region_percentage (calculate_total_revenue transactions))
              (region_tally transactions)) as [l Hl].
  - intros kv _. unfold region_percentage.
    destruct (fdiv_by_positive (RegionSales.sales (snd kv)) _ P) as [q Hq].
    rewrite Hq. simpl. eauto.
  - rewrite Hl. simpl. discriminate.
Qed.

Lemma region_wise_sales_divisor_witness :
  sample_cleaned <> [] /\
  Forall positive_sale sample_cleaned /\
  fgt (calculate_total_revenue sample_cleaned) fzero = true /\
  region_wise_sales sample_cleaned <> Raise ZeroDivisionError.
Proof.
  assert (Hne : sample_cleaned <> []) by discriminate.
  assert (F : Forall positive_sale sample_cleaned).
  { repeat constructor. }
  split; [exact Hne |]. split; [exact F |].
  exact (proj2 region_wise_sales_divisor_positive sample_cleaned Hne F).
Defined.

End Regions.

(** ** Product rankings *)

Section Products.





Lemma firstn_subset {A : Type} (k : nat) : forall (l : list A) x,
  In x (firstn k l) -> In x l.
Proof.
  induction k as [| k IH]; intros [| y l] x; simpl; try tauto.
  intros [E | H]; [now left | right; now apply IH].
Qed.

Lemma slice_to_In {A : Type} (n : Z) (l : list A) x : In x (slice_to n l) -> In x l.
Proof.
  unfold slice_to. destruct (0 <=? n)%Z; apply firstn_subset.
Qed.




(** The loops of [top_selling_products] and of [low_performing_products]
    build the same per-product totals. *)
Lemma top_selling_products_tracker transactions n :
  top_selling_products transactions n =
  slice_to n
    (sorted_by (fun y x => (ranking_quantity x <? ranking_quantity y)%Z)
       (map (fun kv => (fst kv, fst (snd kv), snd (snd kv)))
            (product_tally transactions))).
Proof. reflexivity. Qed.

Lemma low_performing_products_data transactions threshold :
  low_performing_products transactions threshold =
  sorted_by (fun y x => (ranking_quantity y <? ranking_quantity x)%Z)
    (map (fun kv => (fst kv, fst (snd kv), snd (snd kv)))
       (filter (fun kv : string * (Z * PyFloat) => (fst (snd kv) <? threshold)%Z)
               (product_tally transactions))).
Proof. reflexivity. Qed.

Lemma top_selling_from_tally transactions n p :
  In p (top_selling_products transactions n) ->
  In (ranking_name p, (ranking_quantity p, ranking_revenue p))
     (product_tally transactions).
Proof.
  rewrite top_selling_products_tracker. intros H.
  apply slice_to_In in H. apply sorted_by_In in H.
  apply in_map_iff in H. destruct H as [[k [q r]] [E H]]. now subst p.
Qed.

Lemma low_performing_iff transactions threshold p :
  In p (low_performing_products transactions threshold) <->
  In (ranking_name p, (ranking_quantity p, ranking_revenue p))
     (product_tally transactions) /\
  (ranking_quantity p < threshold)%Z.
Proof.
  rewrite low_performing_products_data, sorted_by_In, in_map_iff. split.
  - intros [[k [q r]] [E H]]. subst p. apply filter_In in H.
    destruct H as [H L]. simpl in *. split; [exact H | now apply Z.ltb_lt].
  - intros [H L]. exists (ranking_name p, (ranking_quantity p, ranking_revenue p)).
    split; [now destruct p as [[k q] r] |].
    apply filter_In. split; [exact H | now apply Z.ltb_lt].
Qed.



(** A product of the top-selling list is low-performing exactly when its
    quantity is below the threshold. *)
Corollary top_selling_low_iff transactions threshold n p :
  In p (top_selling_products transactions n) ->
  In p (low_performing_products transactions threshold) <->
  (ranking_quantity p < threshold)%Z.
Proof.
  intros H. rewrite low_performing_iff.
  apply top_selling_from_tally in H. tauto.
Qed.

End Products.

(** ** The daily trend and the peak day *)

Section StringOrder.

Lemma ascii_compare_lt_trans x y z :
  Ascii.compare x y = Lt -> Ascii.compare y z = Lt -> Ascii.compare x z = Lt.
Proof.
  unfold Ascii.compare. rewrite !N.compare_lt_iff. apply N.lt_trans.
Qed.

Lemma string_compare_lt_trans a : forall b c,
  String.compare a b = Lt -> String.compare b c = Lt -> String.compare a c = Lt.
Proof.
  induction a as [| x a IH]; intros [| y b] [| z c]; simpl;
    try discriminate; try reflexivity.
  destruct (Ascii.compare x y) eqn:Exy; try discriminate;
    destruct (Ascii.compare y z) eqn:Eyz; try discriminate; intros H1 H2.
  - apply Ascii.compare_eq_iff in Exy, Eyz. subst.
    assert (R : Ascii.compare z z = Eq)
      by (unfold Ascii.compare; apply N.compare_refl).
    rewrite R. now apply IH with b.
  - apply Ascii.compare_eq_iff in Exy. subst. now rewrite Eyz.
  - apply Ascii.compare_eq_iff in Eyz. subst. now rewrite Exy.
  - now rewrite (ascii_compare_lt_trans _ _ _ Exy Eyz).
Qed.

Lemma str_lt_trans a b c :
  str_lt a b = true -> str_lt b c = true -> str_lt a c = true.
Proof.
  unfold str_lt, String.ltb.
  destruct (String.compare a b) eqn:E1; try discriminate.
  destruct (String.compare b c) eqn:E2; try discriminate.
  now rewrite (string_compare_lt_trans _ _ _ E1 E2).
Qed.

(** Two different strings are ordered one way or the other. *)
Lemma str_lt_connected a b : str_lt a b = false -> a <> b -> str_lt b a = true.
Proof.
  unfold str_lt, String.ltb. rewrite (String.compare_antisym b a).
  destruct (String.compare a b) eqn:E; simpl; try congruence.
  intros _ N. apply String.compare_eq_iff in E. contradiction.
Qed.

End StringOrder.

Section DailyTrend.

Variable V : Type.

Let by_date (y x : string * V) : bool := str_lt (fst y) (fst x).

Let date_lt (a b : string * V) : Prop := str_lt (fst a) (fst b) = true.

Lemma insert_by_date x l :
  ~ In (fst x) (map fst l) ->
  StronglySorted date_lt l -> StronglySorted date_lt (insert_by by_date x l).
Proof.
  induction l as [| y l IH]; simpl; intros N S.
  - repeat constructor.
  - apply StronglySorted_inv in S. destruct S as [S F].
    unfold by_date at 1. destruct (str_lt (fst y) (fst x)) eqn:E.
    + constructor; [apply IH; tauto |].
      apply Forall_forall. intros z Hz.
      apply (Permutation_in _ (insert_by_perm by_date x l)) in Hz.
      destruct Hz as [<- | Hz]; [exact E |].
      rewrite Forall_forall in F. now apply F.
    + assert (L : date_lt x y).
      { apply str_lt_connected; [exact E | intros Q; apply N; now left]. }
      constructor; [now constructor |].
      constructor; [exact L |].
      apply Forall_forall. intros z Hz. rewrite Forall_forall in F.
      unfold date_lt in *. now apply str_lt_trans with (fst y); [| apply F].
Qed.

(** Sorting entries with pairwise distinct keys puts the keys in strictly
    increasing order. *)
Lemma sorted_by_date l :
  NoDup (map fst l) -> StronglySorted date_lt (sorted_by by_date l).
Proof.
  induction l as [| x l IH]; simpl; intros N; [constructor |].
  inversion N as [| ? ? Hx N']; subst.
  apply insert_by_date; [| now apply IH].
  intros H. apply Hx. apply in_map_iff in H. destruct H as [z [E H]].
  apply sorted_by_In in H. rewrite <- E. now apply in_map.
Qed.

End DailyTrend.

Section PeakDay.

Local Open Scope string_scope.

Lemma daily_loop_NoDup transactions :
  forall daily : dict (PyFloat * nat * list string),
  NoDup (map fst daily) ->
  NoDup (map fst
    (fold_left
       (fun daily tx =>
          tally (Date tx) (fzero, 0, [])
            (fun v => (fadd (fst (fst v)) (amount tx),
                       S (snd (fst v)),
                       set_add (CustomerID tx) (snd v)))
            daily)
       transactions daily)).
Proof.
  induction transactions as [| tx rest IH]; simpl; intros daily H; [exact H |].
  apply IH. now apply tally_NoDup.
Qed.

(** X25. The daily trend lists each date once, in strictly ascending
    order. *)
Theorem daily_sales_trend_ascending transactions :
  StronglySorted (fun a b => str_lt (fst a) (fst b) = true)
                 (daily_sales_trend transactions).
Proof.
  unfold daily_sales_trend. apply sorted_by_date.
  rewrite map_map. simpl. apply daily_loop_NoDup. constructor.
Qed.

(** C6. A day whose revenue rounds to [0.0] never passes the test
    [revenue > peak_revenue], which starts from [0]: on the one-sale
    collection [tx_tiny], which the cleaner accepts, the daily trend has an
    entry for 2024-01-01 but [find_peak_sales_day] returns [(None, 0, 0)]
    instead of that entry. *)
Theorem peak_day_missed_when_revenue_rounds_to_zero :
  parse_and_clean_data ["T1|2024-01-01|P1|Pen|1|0.001|C1|North"]
    = Ok ([tx_tiny], 0) /\
  daily_sales_trend [tx_tiny]
    = [("2024-01-01", {| Daily.revenue := Fin 0;
                         Daily.transaction_count := 1;
                         Daily.unique_customers := 1 |})] /\
  find_peak_sales_day [tx_tiny] = (None, fzero, 0).
Proof. repeat split; vm_compute; reflexivity. Qed.

Lemma peak_scan l : forall s,
  snd (fst s) <> NaN -> peak_outcome l s (fold_left peak_step l s).
Proof.
  induction l as [| e l IH]; simpl; intros [[d0 r0] c0] N; simpl in N.
  - apply peak_kept. constructor.
  - unfold peak_step at 2. simpl.
    destruct (fgt (Daily.revenue (snd e)) r0) eqn:G.
    + assert (N' : Daily.revenue (snd e) <> NaN)
        by (apply (flt_not_NaN r0); exact G).
      specialize (IH (Some (fst e), Daily.revenue (snd e),
                      Daily.transaction_count (snd e)) N').
      inversion IH as [F E | earlier later w L Gw Fe Fl E]; simpl in *.
      * apply (@peak_found (e :: l) (d0, r0, c0) [] l e);
          [reflexivity | exact G | constructor | exact F].
      * apply (@peak_found (e :: l) (d0, r0, c0) (e :: earlier) later w).
        -- simpl. now rewrite L.
        -- unfold fgt in *. simpl. now apply flt_trans with (day_revenue e).
        -- constructor; [left; exact Gw | exact Fe].
        -- exact Fl.
    + specialize (IH (d0, r0, c0) N).
      inversion IH as [F E | earlier later w L Gw Fe Fl E]; simpl in *.
      * apply peak_kept. constructor; assumption.
      * apply (@peak_found (e :: l) (d0, r0, c0) (e :: earlier) later w).
        -- simpl. now rewrite L.
        -- exact Gw.
        -- constructor; [| exact Fe].
           unfold fgt in G.
           destruct (@not_flt_cases r0 (day_revenue e) G N) as [Hn | Hle];
             [now right | left].
           unfold fgt in Gw. now apply fle_flt_trans with r0.
        -- exact Fl.
Qed.

(** X26. What [find_peak_sales_day] computes: when no day of the trend has
    a revenue above 0 the answer is [(None, 0, 0)]; otherwise it is the first
    day, in the order of the trend, whose revenue no other day exceeds. *)
Theorem find_peak_sales_day_outcome transactions :
  peak_outcome (daily_sales_trend transactions) (None, fzero, 0)
               (find_peak_sales_day transactions).
Proof. apply peak_scan. discriminate. Qed.

(** On the empty collection the answer is [(None, 0, 0)]. *)
Lemma find_peak_sales_day_empty : find_peak_sales_day [] = (None, fzero, 0).
Proof. reflexivity. Qed.

End PeakDay.

(** ** Enrichment *)

Section EnrichmentFacts.

Local Open Scope string_scope.

Lemma enrich_loop transactions : forall enriched,
  fold_left (fun enriched tx => (enriched ++ [enrich_one tx])%list)
            transactions enriched
  = (enriched ++ map enrich_one transactions)%list.
Proof.
  induction transactions as [| tx rest IH]; simpl; intros enriched.
  - now rewrite app_nil_r.
  - rewrite IH, <- app_assoc. reflexivity.
Qed.

Lemma enrich_sales_data_map transactions product_mapping :
  enrich_sales_data transactions product_mapping = map enrich_one transactions.
Proof. unfold enrich_sales_data. now rewrite enrich_loop. Qed.

Ltac split_on_keywords name :=
  repeat match goal with
         | |- context [contains ?k name] =>
             destruct (contains k name); simpl; try reflexivity
         end.

(** The [if]/[elif] chain is first-match-wins lookup in the rule table. *)
Lemma business_mapping_first_match name : business_mapping name = first_match name.
Proof.
  unfold business_mapping, first_match, rules, rule_matches. simpl.
  split_on_keywords name.
Qed.

Lemma business_mapping_match name :
  snd (business_mapping name) = existsb (fun k => contains k name) keywords.
Proof.
  unfold business_mapping, keywords, rules. simpl.
  split_on_keywords name.
Qed.

Lemma enrich_one_attributes tx :
  attributes (enrich_one tx) = business_mapping (lower (ProductName tx)).
Proof.
  unfold enrich_one, attributes.
  destruct (business_mapping (lower (ProductName tx))) as [[[c b] r] m].
  reflexivity.
Qed.

(** C7. [enrich_sales_data] returns one enriched record per transaction, in
    the same order, whatever the catalog mapping; [API_Match] holds exactly
    when the lower-cased product name contains one of the keywords; and the
    [(category, brand, rating, match)] attributes are those of the first
    rule that fires in the order usb/cable, mouse, charger, monitor, webcam,
    keyboard, headphone, external hard drive/hard drive, laptop, or the
    defaults [("Unknown", "Unknown", 0.0, False)] when none does. *)
Theorem enrich_sales_data_first_match :
  forall transactions product_mapping,
    List.length (enrich_sales_data transactions product_mapping)
      = List.length transactions /\
    map record (enrich_sales_data transactions product_mapping) = transactions /\
    Forall (fun e =>
              let name := lower (ProductName (record e)) in
              (API_Match e = true <->
               exists k, In k keywords /\ contains k name = true) /\
              attributes e = first_match name)
           (enrich_sales_data transactions product_mapping).
Proof.
  intros transactions product_mapping. rewrite enrich_sales_data_map.
  split; [apply length_map |]. split.
  - rewrite map_map. rewrite <- (map_id transactions) at 2.
    apply map_ext. intros tx. unfold enrich_one.
    now destruct (business_mapping (lower (ProductName tx))) as [[[c b] r] m].
  - apply Forall_forall. intros e H. apply in_map_iff in H.
    destruct H as [tx [E _]]. subst e.
    assert (R : record (enrich_one tx) = tx).
    { unfold enrich_one.
      now destruct (business_mapping (lower (ProductName tx))) as [[[c b] r] m]. }
    cbv zeta. rewrite R. split.
    + assert (M : API_Match (enrich_one tx)
                  = snd (business_mapping (lower (ProductName tx)))).
      { rewrite <- enrich_one_attributes. reflexivity. }
      rewrite M, business_mapping_match, existsb_exists. reflexivity.
    + rewrite enrich_one_attributes. apply business_mapping_first_match.
Qed.

(** Containment is by substring: [mousepad] fires the [mouse] rule. *)
Example mousepad_is_matched :
  business_mapping (lower "Gaming Mousepad")
  = ("mobile-accessories", "TechGear", Fin (443 # 100), true).
Proof. vm_compute. reflexivity. Qed.

End EnrichmentFacts.

(** ** The region filter *)

Section FilterFacts.

Local Open Scope string_scope.

(** Against C8 as stated: the filter trims the selected region only.  A
    record whose [Region] is the selected name behind a blank matches under
    the trimmed comparison but is not kept. *)
Lemma padded_region_is_not_kept :
  [tx_padded] <> [] /\
  filter (region_matches_trimmed "North") [tx_padded] = [tx_padded] /\
  fst (validate_and_filter_sales [tx_padded] (Some "North")) = [].
Proof. repeat split; try discriminate; vm_compute; reflexivity. Qed.

(** C8, amended. For a non-empty collection and a given region, the filter
    keeps, in input order, exactly the records whose lower-cased [Region]
    equals the trimmed, lower-cased given region, and the summary carries
    that key and the counts before and after; for records whose [Region]
    has no surrounding whitespace this is the trimmed, case-insensitive
    comparison.  With no region given the input comes back unchanged with a
    summary marking no filter and the record count. *)
Theorem validate_and_filter_sales_keeps_matching :
  forall cleaned_data,
    cleaned_data <> [] ->
    (forall selected,
       let key := lower (strip selected) in
       let kept := fst (validate_and_filter_sales cleaned_data (Some selected)) in
       kept = filter (fun row => String.eqb (lower (Region row)) key) cleaned_data /\
       (forall row, In row kept <->
                    In row cleaned_data /\ lower (Region row) = key) /\
       (forall row, strip (Region row) = Region row ->
                    In row cleaned_data ->
                    (In row kept <-> region_matches_trimmed selected row = true)) /\
       snd (validate_and_filter_sales cleaned_data (Some selected))
         = Filtered key (List.length cleaned_data) (List.length kept)) /\
    validate_and_filter_sales cleaned_data None
      = (cleaned_data, NotFiltered (List.length cleaned_data)).
Proof.
  intros cleaned_data Hne.
  destruct cleaned_data as [| row0 rest]; [congruence |].
  split; [| reflexivity].
  intros selected key kept.
  assert (K : kept = filter (fun row => String.eqb (lower (Region row)) key)
                            (row0 :: rest)) by reflexivity.
  assert (I : forall row, In row kept <->
                          In row (row0 :: rest) /\ lower (Region row) = key).
  { intros row. rewrite K, filter_In, String.eqb_eq. reflexivity. }
  split; [exact K |]. split; [exact I |]. split.
  - intros row Hs Hin. rewrite I. unfold region_matches_trimmed.
    rewrite Hs, String.eqb_eq. fold key. tauto.
  - reflexivity.
Qed.

Lemma validate_and_filter_sales_witness :
  sample_cleaned <> [] /\
  fst (validate_and_filter_sales sample_cleaned (Some " NORTH ")) = [sample_usb] /\
  validate_and_filter_sales sample_cleaned None
    = (sample_cleaned, NotFiltered 2).
Proof.
  assert (Hne : sample_cleaned <> []) by discriminate.
  destruct (validate_and_filter_sales_keeps_matching Hne) as [F N].
  split; [exact Hne |]. split; [| exact N].
  destruct (F " NORTH ") as [K _]. rewrite K. vm_compute. reflexivity.
Defined.

End FilterFacts.

(** ** The report *)

Section ReportFacts.

Variable now : string.
Variable format_money : PyFloat -> string.
Variable str_float : PyFloat -> string.

(** C1. On an empty transaction collection the report is not written:
    [min(date_list)] raises [ValueError] on the empty date list before the
    file is opened, whatever the enriched records are. *)
Theorem generate_sales_report_empty_raises :
  forall enriched_transactions,
    generate_sales_report now format_money str_float [] enriched_transactions
    = Raise ValueError.
Proof. intros enriched_transactions. reflexivity. Qed.

(** With transactions but no enriched record the success rate divides by
    zero. *)
Lemma generate_sales_report_no_enriched_raises :
  generate_sales_report now format_money str_float sample_cleaned []
  = Raise ZeroDivisionError.
Proof. vm_compute. reflexivity. Qed.

End ReportFacts.

(** ** Grouping loops *)

Section DictLookup.

Variable V : Type.

Lemma dict_contains_get k (d : dict V) :
  dict_contains k d = match dict_get k d with Some _ => true | None => false end.
Proof.
  unfold dict_contains.
  induction d as [| [k' v] d IH]; simpl; [reflexivity |].
  destruct (String.eqb k k'); simpl; [reflexivity | exact IH].
Qed.

Lemma dict_get_modify k k' f (d : dict V) :
  dict_get k' (dict_modify k f d) =
  if String.eqb k' k then option_map f (dict_get k d) else dict_get k' d.
Proof.
  induction d as [| [k0 v] d IH]; simpl.
  - now destruct (String.eqb k' k).
  - destruct (String.eqb_spec k k0) as [-> | N]; simpl.
    + destruct (String.eqb_spec k' k0) as [-> | N']; simpl; [reflexivity |].
      reflexivity.
    + destruct (String.eqb_spec k' k0) as [-> | N']; simpl.
      * destruct (String.eqb_spec k0 k); [congruence | reflexivity].
      * exact IH.
Qed.

Lemma dict_get_set k k' v (d : dict V) :
  dict_get k' (dict_set k v d) =
  if String.eqb k' k then Some v else dict_get k' d.
Proof.
  induction d as [| [k0 v0] d IH]; simpl.
  - reflexivity.
  - destruct (String.eqb_spec k k0) as [-> | N]; simpl.
    + destruct (String.eqb_spec k' k0); reflexivity.
    + destruct (String.eqb_spec k' k0) as [-> | N']; simpl.
      * destruct (String.eqb_spec k0 k); [congruence | reflexivity].
      * exact IH.
Qed.

(** Looking a key up after a tally step. *)
Lemma dict_get_tally k k' init f (d : dict V) :
  dict_get k' (tally k init f d) =
  if String.eqb k' k
  then Some (f (match dict_get k d with Some v => v | None => init end))
  else dict_get k' d.
Proof.
  unfold tally. rewrite dict_get_modify, dict_contains_get.
  destruct (String.eqb_spec k' k) as [-> | N].
  - destruct (dict_get k d) as [v |] eqn:E; simpl.
    + now rewrite E.
    + now rewrite dict_get_set, String.eqb_refl.
  - destruct (dict_get k d) as [v |] eqn:E; [reflexivity |].
    rewrite dict_get_set. now destruct (String.eqb_spec k' k).
Qed.

Lemma dict_get_In k v (d : dict V) : dict_get k d = Some v -> In (k, v) d.
Proof.
  induction d as [| [k0 v0] d IH]; simpl; [discriminate |].
  destruct (String.eqb_spec k k0) as [-> | N]; intros H.
  - inversion H. now left.
  - right. now apply IH.
Qed.

Lemma In_dict_get k v (d : dict V) :
  NoDup (map fst d) -> In (k, v) d -> dict_get k d = Some v.
Proof.
  induction d as [| [k0 v0] d IH]; simpl; intros N H; [destruct H |].
  inversion N as [| ? ? Hn N']; subst.
  destruct H as [E | H].
  - inversion E; subst. now rewrite String.eqb_refl.
  - destruct (String.eqb_spec k k0) as [-> | Hk]; [| now apply IH].
    exfalso. apply Hn. now apply (in_map fst) in H.
Qed.

Lemma dict_get_keys k (d : dict V) :
  In k (map fst d) <-> exists v, dict_get k d = Some v.
Proof.
  rewrite <- dict_contains_In, dict_contains_get.
  destruct (dict_get k d) as [v |]; split; intros H; eauto; try discriminate.
  destruct H as [v H]. discriminate.
Qed.

End DictLookup.

Section Grouping.

Variables T V : Type.
Variable key : T -> string.
Variable init : V.
Variable upd : T -> V -> V.

Let step (d : dict V) (tx : T) : dict V := tally (key tx) init (upd tx) d.

Let selects (k : string) (tx : T) : bool := String.eqb (key tx) k.

Let pick (o : option V) : V := match o with Some v => v | None => init end.

Let follow (k : string) (o : option V) (tx : T) : option V :=
  if selects k tx then Some (upd tx (pick o)) else o.

Lemma group_get k txs : forall d,
  dict_get k (fold_left step txs d) = fold_left (follow k) txs (dict_get k d).
Proof.
  induction txs as [| tx txs IH]; simpl; intros d; [reflexivity |].
  rewrite IH. f_equal. unfold step, follow, selects, pick.
  rewrite dict_get_tally, String.eqb_sym.
  destruct (String.eqb_spec (key tx) k) as [-> | N]; reflexivity.
Qed.

Lemma group_NoDup txs : forall d,
  NoDup (map fst d) -> NoDup (map fst (fold_left step txs d)).
Proof.
  induction txs as [| tx txs IH]; simpl; intros d H; [exact H |].
  apply IH. now apply tally_NoDup.
Qed.

Lemma follow_absent k txs : forall o,
  filter (selects k) txs = [] -> fold_left (follow k) txs o = o.
Proof.
  induction txs as [| tx txs IH]; simpl; intros o H; [reflexivity |].
  change (follow k o tx) with (if selects k tx then Some (upd tx (pick o)) else o).
  destruct (selects k tx); [discriminate | now apply IH].
Qed.

Lemma follow_present k txs : forall o,
  filter (selects k) txs <> [] -> exists v, fold_left (follow k) txs o = Some v.
Proof.
  induction txs as [| tx txs IH]; simpl; intros o H; [congruence |].
  change (follow k o tx) with (if selects k tx then Some (upd tx (pick o)) else o).
  destruct (selects k tx) eqn:E.
  - destruct (filter (selects k) txs) eqn:F.
    + rewrite (follow_absent _ _ _ F). eauto.
    + apply IH. congruence.
  - now apply IH.
Qed.

(** The keys of the result are the keys met in the input. *)
Lemma group_keys k txs :
  In k (map fst (fold_left step txs [])) <-> In k (map key txs).
Proof.
  rewrite dict_get_keys, group_get. simpl.
  assert (S : In k (map key txs) <-> filter (selects k) txs <> []).
  { rewrite in_map_iff. split.
    - intros [tx [E H]] F.
      assert (I : In tx (filter (selects k) txs)).
      { apply filter_In. split; [exact H |]. unfold selects. rewrite E.
        apply String.eqb_refl. }
      rewrite F in I. destruct I.
    - intros H. destruct (filter (selects k) txs) as [| tx l] eqn:F; [congruence |].
      assert (I : In tx (filter (selects k) txs)) by (rewrite F; now left).
      apply filter_In in I. destruct I as [I E]. exists tx.
      split; [| exact I]. now apply String.eqb_eq. }
  rewrite S. split.
  - intros [v H] F. rewrite (follow_absent _ _ _ F) in H. discriminate.
  - apply follow_present.
Qed.

Variable M : Type.
Variable g : V -> M.
Variable e : M.
Variable op : M -> T -> M.

Hypothesis g_upd : forall tx v, g (upd tx v) = op (g v) tx.
Hypothesis g_init : g init = e.

Lemma follow_value k txs : forall o,
  g (pick (fold_left (follow k) txs o)) =
  fold_left op (filter (selects k) txs) (g (pick o)).
Proof.
  induction txs as [| tx txs IH]; simpl; intros o; [reflexivity |].
  rewrite IH.
  change (follow k o tx) with (if selects k tx then Some (upd tx (pick o)) else o).
  destruct (selects k tx); simpl.
  - now rewrite g_upd.
  - reflexivity.
Qed.

(** The value grouped under a key is the fold of the updates of the
    transactions with that key, in input order. *)
Lemma group_value k v txs :
  In (k, v) (fold_left step txs []) ->
  In k (map key txs) /\ g v = fold_left op (filter (selects k) txs) e.
Proof.
  intros H. split.
  - apply group_keys. now apply (in_map fst) in H.
  - apply In_dict_get in H; [| apply group_NoDup; constructor].
    rewrite group_get in H. simpl in H.
    pose proof (follow_value k txs None) as F. rewrite H in F. simpl in F.
    now rewrite g_init in F.
Qed.

End Grouping.

Section SortedOutput.

Variable A : Type.
Variable before : A -> A -> bool.
Variable R : A -> A -> Prop.
Variable P : A -> Prop.

Hypothesis R_trans : forall a b c, R a b -> R b c -> R a c.
Hypothesis before_true : forall x y, before y x = true -> R y x.
Hypothesis before_false : forall x y, P x -> P y -> before y x = false -> R x y.

Lemma insert_by_sorted x l :
  P x -> Forall P l ->
  StronglySorted R l -> StronglySorted R (insert_by before x l).
Proof.
  intros Px. induction l as [| y l IH]; simpl; intros F S.
  - repeat constructor.
  - apply StronglySorted_inv in S. destruct S as [S Fy].
    inversion F as [| ? ? Py F']; subst.
    destruct (before y x) eqn:E.
    + constructor; [now apply IH |].
      apply Forall_forall. intros z Hz.
      apply (Permutation_in _ (insert_by_perm before x l)) in Hz.
      destruct Hz as [<- | Hz]; [now apply before_true |].
      rewrite Forall_forall in Fy. now apply Fy.
    + assert (Rxy : R x y) by now apply before_false.
      constructor; [now constructor |].
      constructor; [exact Rxy |].
      apply Forall_forall. intros z Hz. rewrite Forall_forall in Fy.
      apply R_trans with y; [exact Rxy | now apply Fy].
Qed.

(** The stable sort orders its output by [R] when [before] decides [R] on
    the entries. *)
Lemma sorted_by_sorted l : Forall P l -> StronglySorted R (sorted_by before l).
Proof.
  induction l as [| x l IH]; simpl; intros F; [constructor |].
  inversion F as [| ? ? Px F']; subst.
  apply insert_by_sorted; [exact Px | | now apply IH].
  apply Forall_forall. intros z Hz. apply sorted_by_In in Hz.
  rewrite Forall_forall in F'. now apply F'.
Qed.

End SortedOutput.

Section MoreFloatLaws.

Lemma fle_trans x y z : fle x y = true -> fle y z = true -> fle x z = true.
Proof.
  destruct x as [a | | |], y as [b | | |], z as [c | | |];
    try discriminate; try reflexivity.
  rewrite !fle_fin. apply Qle_trans.
Qed.

(** Two proper numbers are comparable. *)
Lemma not_flt_fle x y :
  x <> NaN -> y <> NaN -> flt x y = false -> fle y x = true.
Proof.
  intros Nx Ny H. destruct (@not_flt_cases x y H Nx) as [E | E];
    [contradiction | exact E].
Qed.

Lemma fdiv_raises x y e :
  fdiv x y = Raise e <-> e = ZeroDivisionError /\ fis_zero y = true.
Proof.
  destruct y as [b | | |]; simpl.
  - destruct (is_zero b).
    + split; [intros H; inversion H; auto | intros [-> _]; reflexivity].
    + split; [destruct x; discriminate | intros [_ H]; discriminate].
  - split; [destruct x; discriminate | intros [_ H]; discriminate].
  - split; [destruct x; discriminate | intros [_ H]; discriminate].
  - split; [discriminate | intros [_ H]; discriminate].
Qed.

Lemma fdiv_returns x y : fis_zero y = false -> exists q, fdiv x y = Ok q.
Proof.
  intros H. destruct (fdiv x y) as [q | e] eqn:E; [eauto |].
  apply fdiv_raises in E. destruct E as [_ E]. congruence.
Qed.

End MoreFloatLaws.

(** ** Regions, group by group *)

Section RegionGroups.

Local Open Scope string_scope.

Lemma fold_count {T : Type} (l : list T) : forall n,
  fold_left (fun m _ => S m) l n = n + List.length l.
Proof.
  induction l as [| x l IH]; simpl; intros n; [lia |].
  rewrite IH. lia.
Qed.

Lemma Forall2_In_r {A B : Type} (Q : A -> B -> Prop) xs ys y :
  Forall2 Q xs ys -> In y ys -> exists x, In x xs /\ Q x y.
Proof.
  induction 1 as [| x y0 xs ys H _ IH]; simpl; intros I; [destruct I |].
  destruct I as [<- | I]; [eauto |].
  destruct (IH I) as [x' [I' H']]. eauto.
Qed.

Lemma region_percentage_fields overall kv kv' :
  region_percentage overall kv = Ok kv' ->
  fst kv' = fst kv /\
  RegionSales.total_sales (snd kv') = RegionSales.sales (snd kv) /\
  RegionSales.transaction_count (snd kv') = RegionSales.count (snd kv).
Proof.
  unfold region_percentage. intros H. apply bind_ok in H.
  destruct H as [q [_ H]]. inversion H; subst; simpl. auto.
Qed.

Let region_init : RegionSales.tally_entry :=
  {| RegionSales.sales := fzero; RegionSales.count := 0 |}.

Let region_upd (tx : Transaction) (e : RegionSales.tally_entry) :=
  {| RegionSales.sales := fadd (RegionSales.sales e) (amount tx);
     RegionSales.count := S (RegionSales.count e) |}.

Lemma region_tally_keys r transactions :
  In r (map fst (region_tally transactions)) <-> In r (map Region transactions).
Proof. apply (group_keys Region region_init region_upd). Qed.

Lemma region_tally_NoDup transactions :
  NoDup (map fst (region_tally transactions)).
Proof. apply (group_NoDup Region region_init region_upd). constructor. Qed.

Lemma region_tally_entry r e transactions :
  In (r, e) (region_tally transactions) ->
  RegionSales.sales e = calculate_total_revenue (in_region r transactions) /\
  RegionSales.count e = List.length (in_region r transactions).
Proof.
  intros H. split.
  - apply (@group_value _ _ Region region_init region_upd _
             RegionSales.sales fzero (fun m tx => fadd m (amount tx))
             (fun _ _ => eq_refl) eq_refl) in H.
    destruct H as [_ H]. exact H.
  - apply (@group_value _ _ Region region_init region_upd _
             RegionSales.count 0 (fun m _ => S m)
             (fun _ _ => eq_refl) eq_refl) in H.
    destruct H as [_ H]. rewrite H. apply (fold_count _ 0).
Qed.

Lemma region_wise_sales_inv transactions regions :
  region_wise_sales transactions = Ok regions ->
  exists l,
    Forall2 (fun x y => region_percentage (calculate_total_revenue transactions) x
                        = Ok y)
            (region_tally transactions) l /\
    Permutation regions l.
Proof.
  unfold region_wise_sales. intros H. apply bind_ok in H.
  destruct H as [l [Hl H]]. inversion H; subst. exists l. split.
  - now apply map_result_Forall2.
  - apply sorted_by_perm.
Qed.

Lemma region_percentage_keys overall d l :
  Forall2 (fun x y => region_percentage overall x = Ok y) d l ->
  map fst l = map fst d.
Proof.
  induction 1 as [| x y d l H _ IH]; simpl; [reflexivity |].
  apply region_percentage_fields in H. destruct H as [E _].
  now rewrite E, IH.
Qed.

(** X1. Whenever [region_wise_sales] returns, every region of the input is
    listed once and no other; the entry of a region carries the revenue of
    that region's transactions, as [calculate_total_revenue] computes it on
    them, and their number. *)
Theorem region_wise_sales_groups :
  forall transactions regions,
    region_wise_sales transactions = Ok regions ->
    NoDup (map fst regions) /\
    (forall r, In r (map fst regions) <-> In r (map Region transactions)) /\
    (forall r e,
        In (r, e) regions ->
        RegionSales.total_sales e
          = calculate_total_revenue (in_region r transactions) /\
        RegionSales.transaction_count e
          = List.length (in_region r transactions)).
Proof.
  intros transactions regions H.
  apply region_wise_sales_inv in H. destruct H as [l [F P]].
  pose proof (@region_percentage_keys _ _ _ F) as K.
  assert (PK : Permutation (map fst regions) (map fst (region_tally transactions))).
  { rewrite <- K. now apply Permutation_map. }
  split; [| split].
  - apply (Permutation_NoDup (Permutation_sym PK)), region_tally_NoDup.
  - intros r. rewrite <- region_tally_keys. split; apply Permutation_in;
      [exact PK | now apply Permutation_sym].
  - intros r e I. apply (Permutation_in _ P) in I.
    destruct (@Forall2_In_r _ _ _ _ _ _ F I) as [[r0 t] [It Hp]].
    apply region_percentage_fields in Hp. simpl in Hp.
    destruct Hp as [Er [Es Ec]]. subst r0.
    apply region_tally_entry in It. destruct It as [S C].
    split; congruence.
Qed.

Lemma region_wise_sales_groups_witness :
  region_wise_sales sample_cleaned = Ok sample_regions /\
  NoDup (map fst sample_regions) /\
  (forall r, In r (map fst sample_regions) <-> In r (map Region sample_cleaned)).
Proof.
  assert (H : region_wise_sales sample_cleaned = Ok sample_regions)
    by (vm_compute; reflexivity).
  destruct (@region_wise_sales_groups sample_cleaned _ H) as [N [K _]].
  split; [exact H |]. split; [exact N | exact K].
Defined.

Lemma region_wise_sales_ok transactions :
  fis_zero (calculate_total_revenue transactions) = false ->
  exists regions, region_wise_sales transactions = Ok regions.
Proof.
  intros Z. unfold region_wise_sales.
  destruct (map_result_total
              (region_percentage (calculate_total_revenue transactions))
              (region_tally transactions)) as [l Hl].
  - intros kv _. unfold region_percentage.
    destruct (@fdiv_returns (RegionSales.sales (snd kv)) _ Z) as [q Hq].
    rewrite Hq. simpl. eauto.
  - rewrite Hl. simpl. eauto.
Qed.

Lemma revenue_positive_not_NaN transactions :
  transactions <> [] -> Forall positive_sale transactions ->
  calculate_total_revenue transactions <> NaN.
Proof.
  intros Hne F. apply (flt_not_NaN fzero).
  apply revenue_loop_positive; [exact F |].
  right. split; [reflexivity | exact Hne].
Qed.

(** X3. On a collection of records with [Quantity > 0] and
    [UnitPrice > 0], whatever [region_wise_sales] returns is in descending
    order of [total_sales]: the total of an entry is at least the total of
    every later entry. *)
Theorem region_wise_sales_descending :
  forall transactions regions,
    Forall positive_sale transactions ->
    region_wise_sales transactions = Ok regions ->
    StronglySorted
      (fun a b => fle (RegionSales.total_sales (snd b))
                      (RegionSales.total_sales (snd a)) = true)
      regions.
Proof.
  intros transactions regions Pos H.
    unfold region_wise_sales in H. apply bind_ok in H.
  destruct H as [l' [Hl H]]. inversion H; subst; clear H.
  apply map_result_Forall2 in Hl.
  apply sorted_by_sorted
    with (P := fun kv => RegionSales.total_sales (snd kv) <> NaN).
  - intros a b c Hab Hbc. now apply fle_trans with (RegionSales.total_sales (snd b)).
  - intros x y Hb. now apply flt_fle.
  - intros x y Px Py Hb. now apply not_flt_fle.
  - apply Forall_forall. intros [r e] I.
    destruct (@Forall2_In_r _ _ _ _ _ _ Hl I) as [[r0 t] [It Hp]].
    apply region_percentage_fields in Hp. simpl in Hp.
    destruct Hp as [Er [Es _]]. subst r0. simpl. rewrite Es.
    apply region_tally_entry in It. destruct It as [S C]. rewrite S.
    assert (Hne : in_region r transactions <> []).
    { intros E. rewrite E in C. simpl in C.
      assert (K : In r (map Region transactions)).
      { apply region_tally_keys.
        destruct (@Forall2_In_r _ _ _ _ _ _ Hl I) as [[r1 t1] [It1 Hp1]].
        apply region_percentage_fields in Hp1. simpl in Hp1.
        destruct Hp1 as [Er1 _]. subst r1. now apply (in_map fst) in It1. }
      apply in_map_iff in K. destruct K as [tx [Etx Itx]].
      assert (Itx' : In tx (in_region r transactions)).
      { apply filter_In. split; [exact Itx | now apply String.eqb_eq]. }
      rewrite E in Itx'. destruct Itx'. }
    apply revenue_positive_not_NaN; [exact Hne |].
    apply Forall_forall. intros tx Itx. apply filter_In in Itx.
    rewrite Forall_forall in Pos. now apply Pos.
Qed.

Lemma region_wise_sales_descending_witness :
  Forall positive_sale sample_cleaned /\
  region_wise_sales sample_cleaned = Ok sample_regions /\
  StronglySorted
    (fun a b => fle (RegionSales.total_sales (snd b))
                    (RegionSales.total_sales (snd a)) = true)
    sample_regions.
Proof.
  assert (F : Forall positive_sale sample_cleaned) by (repeat constructor).
  assert (H : region_wise_sales sample_cleaned = Ok sample_regions)
    by (vm_compute; reflexivity).
  split; [exact F |]. split; [exact H |].
  exact (@region_wise_sales_descending _ _ F H).
Defined.

End RegionGroups.

(** ** Products, group by group *)

Section ProductGroups.

Local Open Scope string_scope.

Let product_init : Z * PyFloat := (0%Z, fzero).

Let product_upd (tx : Transaction) (v : Z * PyFloat) : Z * PyFloat :=
  ((fst v + Quantity tx)%Z, fadd (snd v) (amount tx)).

(** A ranking row that carries the totals of its product. *)
Let row_of (transactions : list Transaction) (p : ProductRanking) : Prop :=
  In (ranking_name p) (map ProductName transactions) /\
  ranking_quantity p = total_quantity (of_product (ranking_name p) transactions) /\
  ranking_revenue p
    = calculate_total_revenue (of_product (ranking_name p) transactions).

Lemma product_tally_keys name transactions :
  In name (map fst (product_tally transactions)) <->
  In name (map ProductName transactions).
Proof. apply (group_keys ProductName product_init product_upd). Qed.

Lemma product_tally_entry name q r transactions :
  In (name, (q, r)) (product_tally transactions) <->
  row_of transactions (name, q, r).
Proof.
  unfold row_of, ranking_name, ranking_quantity, ranking_revenue. simpl.
  assert (Fwd : forall v, In (name, v) (product_tally transactions) ->
                fst v = total_quantity (of_product name transactions) /\
                snd v = calculate_total_revenue (of_product name transactions)).
  { intros v H. split.
    - apply (@group_value _ _ ProductName product_init product_upd _
               fst 0%Z (fun m tx => (m + Quantity tx)%Z)
               (fun _ _ => eq_refl) eq_refl) in H.
      destruct H as [_ H]. exact H.
    - apply (@group_value _ _ ProductName product_init product_upd _
               snd fzero (fun m tx => fadd m (amount tx))
               (fun _ _ => eq_refl) eq_refl) in H.
      destruct H as [_ H]. exact H. }
  split.
  - intros H. split.
    + apply product_tally_keys. now apply (in_map fst) in H.
    + apply Fwd in H. exact H.
  - intros [K [Hq Hr]]. apply product_tally_keys, dict_get_keys in K.
    destruct K as [[q0 r0] G]. apply dict_get_In in G.
    destruct (Fwd _ G) as [E1 E2]. simpl in *. congruence.
Qed.

(** X4. Every row [(name, quantity, revenue)] of [top_selling_products], for
    any [n], names a product of the input and carries the sum of the
    quantities and the revenue ([calculate_total_revenue]) of the
    transactions with that [ProductName]. *)
Theorem top_selling_products_rows :
  forall transactions n p,
    In p (top_selling_products transactions n) ->
    In (ranking_name p) (map ProductName transactions) /\
    ranking_quantity p
      = total_quantity (of_product (ranking_name p) transactions) /\
    ranking_revenue p
      = calculate_total_revenue (of_product (ranking_name p) transactions).
Proof.
  intros transactions n [[name q] r] H.
  apply top_selling_from_tally in H. now apply product_tally_entry in H.
Qed.

Lemma top_selling_products_rows_witness :
  In ("USB Cable", 2%Z, Fin (11 # 1)) (top_selling_products sample_cleaned 1) /\
  2%Z = total_quantity (of_product "USB Cable" sample_cleaned).
Proof.
  assert (T : In ("USB Cable", 2%Z, Fin (11 # 1))
                 (top_selling_products sample_cleaned 1))
    by (vm_compute; auto).
  split; [exact T |].
  exact (proj1 (proj2 (@top_selling_products_rows sample_cleaned 1 _ T))).
Defined.

Lemma firstn_all_of {A : Type} (l : list A) k :
  List.length l <= k -> firstn k l = l.
Proof.
  revert k. induction l as [| x l IH]; intros [| k]; simpl; intros H;
    try reflexivity; try lia.
  f_equal. apply IH. lia.
Qed.

Lemma product_tally_NoDup_keys transactions :
  NoDup (map fst (product_tally transactions)).
Proof. apply (group_NoDup ProductName product_init product_upd). constructor. Qed.

Lemma product_tally_length transactions :
  List.length (product_tally transactions) <= List.length transactions.
Proof.
  rewrite <- (length_map fst), <- (length_map ProductName transactions).
  apply NoDup_incl_length; [apply product_tally_NoDup_keys |].
  intros name H. now apply product_tally_keys.
Qed.

(** X5. With [n] at least the number of transactions, [top_selling_products]
    leaves no product out: every product of the input has its row. *)
Theorem top_selling_products_complete :
  forall transactions n name,
    (Z.of_nat (List.length transactions) <= n)%Z ->
    In name (map ProductName transactions) ->
    In (name,
        total_quantity (of_product name transactions),
        calculate_total_revenue (of_product name transactions))
       (top_selling_products transactions n).
Proof.
  intros transactions n name Hn K.
  rewrite top_selling_products_tracker. unfold slice_to.
  destruct (Z.leb_spec 0 n) as [_ | Neg]; [| lia].
  rewrite firstn_all_of.
  - apply sorted_by_In.
    apply (in_map (fun kv : string * (Z * PyFloat) =>
                     (fst kv, fst (snd kv), snd (snd kv)))
                  _ (name, (_, _))).
    apply product_tally_entry. repeat split. exact K.
  - rewrite (Permutation_length (sorted_by_perm _ _)), length_map.
    pose proof (product_tally_length transactions). lia.
Qed.

Lemma top_selling_products_complete_witness :
  (Z.of_nat (List.length sample_cleaned) <= 5)%Z /\
  In "Wireless Mouse" (map ProductName sample_cleaned) /\
  In ("Wireless Mouse",
      total_quantity (of_product "Wireless Mouse" sample_cleaned),
      calculate_total_revenue (of_product "Wireless Mouse" sample_cleaned))
     (top_selling_products sample_cleaned 5).
Proof.
  assert (L : (Z.of_nat (List.length sample_cleaned) <= 5)%Z)
    by (vm_compute; discriminate).
  assert (K : In "Wireless Mouse" (map ProductName sample_cleaned))
    by (simpl; auto).
  split; [exact L |]. split; [exact K |].
  exact (@top_selling_products_complete sample_cleaned 5 _ L K).
Defined.

Lemma firstn_sorted {A : Type} (R : A -> A -> Prop) k : forall l,
  StronglySorted R l -> StronglySorted R (firstn k l).
Proof.
  induction k as [| k IH]; intros [| x l] S; simpl; try constructor.
  - apply IH. now apply StronglySorted_inv in S.
  - apply StronglySorted_inv in S. destruct S as [_ F].
    apply Forall_forall. intros z Hz. apply firstn_subset in Hz.
    rewrite Forall_forall in F. now apply F.
Qed.

Lemma firstn_NoDup {A : Type} k : forall l : list A,
  NoDup l -> NoDup (firstn k l).
Proof.
  induction k as [| k IH]; intros [| x l] N; simpl; try constructor.
  - inversion N; subst. intros H. apply firstn_subset in H. contradiction.
  - inversion N; subst. now apply IH.
Qed.

Lemma slice_to_firstn {A : Type} (n : Z) (l : list A) :
  exists k, slice_to n l = firstn k l /\ ((0 <= n)%Z -> k = Z.to_nat n).
Proof.
  unfold slice_to. destruct (Z.leb_spec 0 n).
  - exists (Z.to_nat n). auto.
  - exists (List.length l - Z.to_nat (- n)). split; [reflexivity | lia].
Qed.

(** X6. For any [n], the rows of [top_selling_products] are in descending
    order of quantity and name each product at most once; for [n >= 0]
    there are [min(n, number of distinct product names)] rows. *)
Theorem top_selling_products_order :
  forall transactions n,
    StronglySorted
      (fun a b => (ranking_quantity b <= ranking_quantity a)%Z)
      (top_selling_products transactions n) /\
    NoDup (map ranking_name (top_selling_products transactions n)) /\
    ((0 <= n)%Z ->
     List.length (top_selling_products transactions n)
     = Nat.min (Z.to_nat n)
         (List.length (nodup string_dec (map ProductName transactions)))).
Proof.
  intros transactions n. rewrite top_selling_products_tracker.
  set (ranked := map (fun kv : string * (Z * PyFloat) =>
                        (fst kv, fst (snd kv), snd (snd kv)))
                     (product_tally transactions)).
  set (before := fun y x : ProductRanking =>
                   (ranking_quantity x <? ranking_quantity y)%Z).
  destruct (slice_to_firstn n (sorted_by before ranked)) as [k [-> Hk]].
  assert (Names : map ranking_name ranked = map fst (product_tally transactions)).
  { unfold ranked. rewrite map_map. reflexivity. }
  split; [| split].
  - apply firstn_sorted.
    apply sorted_by_sorted with (P := fun _ => True).
    + intros a b c H1 H2. lia.
    + intros x y H. unfold before in H. apply Z.ltb_lt in H. lia.
    + intros x y _ _ H. unfold before in H. apply Z.ltb_ge in H. lia.
    + apply Forall_forall. auto.
  - rewrite <- firstn_map. apply firstn_NoDup.
    apply (Permutation_NoDup
             (Permutation_map ranking_name
                (Permutation_sym (sorted_by_perm before ranked)))).
    rewrite Names. apply product_tally_NoDup_keys.
  - intros Hn. rewrite (Hk Hn), length_firstn. f_equal.
    rewrite (Permutation_length (sorted_by_perm before ranked)).
    unfold ranked. rewrite length_map, <- (length_map fst).
    apply Permutation_length, NoDup_Permutation.
    + apply product_tally_NoDup_keys.
    + apply NoDup_nodup.
    + intros name. rewrite product_tally_keys, nodup_In. reflexivity.
Qed.

(** X7. A row is in the result of [low_performing_products] exactly when it
    names a product of the input, carries the sum of the quantities and the
    revenue of that product's transactions, and that quantity is strictly
    below the threshold. *)
Theorem low_performing_products_rows :
  forall transactions threshold p,
    In p (low_performing_products transactions threshold) <->
    (In (ranking_name p) (map ProductName transactions) /\
     ranking_quantity p
       = total_quantity (of_product (ranking_name p) transactions) /\
     ranking_revenue p
       = calculate_total_revenue (of_product (ranking_name p) transactions)) /\
    (ranking_quantity p < threshold)%Z.
Proof.
  intros transactions threshold [[name q] r].
  rewrite low_performing_iff.
  unfold ranking_name, ranking_quantity, ranking_revenue. simpl.
  rewrite product_tally_entry. reflexivity.
Qed.

End ProductGroups.

(** ** Sets built by [add] *)

Section DistinctFacts.

Lemma set_add_In x y s : In y (set_add x s) <-> y = x \/ In y s.
Proof.
  unfold set_add. destruct (existsb (String.eqb x) s) eqn:E.
  - split; [auto |]. intros [-> | H]; [| exact H].
    apply existsb_exists in E. destruct E as [z [Hz Ez]].
    apply String.eqb_eq in Ez. now subst.
  - rewrite in_app_iff. simpl. intuition.
Qed.

Lemma set_add_NoDup x s : NoDup s -> NoDup (set_add x s).
Proof.
  intros N. unfold set_add. destruct (existsb (String.eqb x) s) eqn:E; [exact N |].
  apply NoDup_app; auto.
  - constructor; [tauto | constructor].
  - intros y Hy [<- | []].
    assert (T : existsb (String.eqb x) s = true).
    { apply existsb_exists. exists x. split; [exact Hy | apply String.eqb_refl]. }
    congruence.
Qed.

Lemma set_add_length x s :
  List.length s <= List.length (set_add x s) <= S (List.length s).
Proof.
  unfold set_add. destruct (existsb (String.eqb x) s); [lia |].
  rewrite length_app. simpl. lia.
Qed.

Lemma add_all_spec l : forall s,
  NoDup s ->
  NoDup (fold_left (fun s x => set_add x s) l s) /\
  (forall y, In y (fold_left (fun s x => set_add x s) l s) <-> In y s \/ In y l) /\
  List.length s <= List.length (fold_left (fun s x => set_add x s) l s)
    <= List.length s + List.length l.
Proof.
  induction l as [| x l IH]; simpl; intros s N.
  - split; [exact N |]. split; [intros y; tauto | lia].
  - destruct (IH (set_add x s) (set_add_NoDup x N)) as [N' [I L]].
    split; [exact N' |]. split.
    + intros y. rewrite I, set_add_In. intuition.
    + pose proof (set_add_length x s). lia.
Qed.

(** [distinct] keeps every element once. *)
Lemma distinct_spec l :
  NoDup (distinct l) /\
  (forall y, In y (distinct l) <-> In y l) /\
  List.length (distinct l) <= List.length l.
Proof.
  destruct (add_all_spec l (NoDup_nil string)) as [N [I L]].
  split; [exact N |]. split.
  - intros y. rewrite (I y). simpl. tauto.
  - simpl in L. apply L.
Qed.

Lemma distinct_nonempty l : l <> [] -> 1 <= List.length (distinct l).
Proof.
  destruct l as [| x l]; [congruence |]. intros _.
  destruct (distinct_spec (x :: l)) as [_ [I _]].
  assert (H : In x (distinct (x :: l))) by (apply I; now left).
  destruct (distinct (x :: l)); [destruct H | simpl; lia].
Qed.

Lemma add_all_map {T : Type} (f : T -> string) (l : list T) : forall s,
  fold_left (fun s tx => set_add (f tx) s) l s
  = fold_left (fun s x => set_add x s) (map f l) s.
Proof.
  induction l as [| x l IH]; simpl; intros s; [reflexivity | apply IH].
Qed.

End DistinctFacts.

(** ** Customers, group by group *)

Section CustomerGroups.

Local Open Scope string_scope.

Let customer_init : PyFloat * nat * list string := (fzero, 0, []).

Let customer_upd (tx : Transaction) (d : PyFloat * nat * list string) :=
  (fadd (fst (fst d)) (amount tx), S (snd (fst d)),
   set_add (ProductName tx) (snd d)).

Lemma customer_tally_keys cid transactions :
  In cid (map fst (customer_tally transactions)) <->
  In cid (map CustomerID transactions).
Proof. apply (group_keys CustomerID customer_init customer_upd). Qed.

Lemma customer_tally_NoDup transactions :
  NoDup (map fst (customer_tally transactions)).
Proof. apply (group_NoDup CustomerID customer_init customer_upd). constructor. Qed.

Lemma key_selects_nonempty {T : Type} (key : T -> string) k (l : list T) :
  In k (map key l) -> filter (fun tx => String.eqb (key tx) k) l <> [].
Proof.
  intros H E. apply in_map_iff in H. destruct H as [tx [Ek I]].
  assert (I' : In tx (filter (fun tx => String.eqb (key tx) k) l)).
  { apply filter_In. split; [exact I | now apply String.eqb_eq]. }
  rewrite E in I'. destruct I'.
Qed.

Lemma customer_tally_entry cid d transactions :
  In (cid, d) (customer_tally transactions) ->
  of_customer cid transactions <> [] /\
  fst (fst d) = calculate_total_revenue (of_customer cid transactions) /\
  snd (fst d) = List.length (of_customer cid transactions) /\
  snd d = distinct (map ProductName (of_customer cid transactions)).
Proof.
  intros H. split; [| split; [| split]].
  - apply (key_selects_nonempty CustomerID), customer_tally_keys.
    now apply (in_map fst) in H.
  - apply (@group_value _ _ CustomerID customer_init customer_upd _
             (fun d => fst (fst d)) fzero (fun m tx => fadd m (amount tx))
             (fun _ _ => eq_refl) eq_refl) in H.
    destruct H as [_ H]. exact H.
  - apply (@group_value _ _ CustomerID customer_init customer_upd _
             (fun d => snd (fst d)) 0 (fun m _ => S m)
             (fun _ _ => eq_refl) eq_refl) in H.
    destruct H as [_ H]. rewrite H. apply (fold_count _ 0).
  - apply (@group_value _ _ CustomerID customer_init customer_upd _
             (fun d => snd d) [] (fun s tx => set_add (ProductName tx) s)
             (fun _ _ => eq_refl) eq_refl) in H.
    destruct H as [_ H]. rewrite H. apply add_all_map.
Qed.

Let customer_row (kv : string * (PyFloat * nat * list string))
  : result (string * Customer.summary) :=
  let data := snd kv in
  avg <- fdiv (fst (fst data)) (of_int (Z.of_nat (snd (fst data)))) ;;
  Ok (fst kv,
      {| Customer.total_spent := round2 (fst (fst data));
         Customer.purchase_count := snd (fst data);
         Customer.avg_order_value := round2 avg;
         Customer.products_bought := snd data |}).

Lemma customer_analysis_inv transactions customers :
  customer_analysis transactions = Ok customers ->
  exists l,
    Forall2 (fun x y => customer_row x = Ok y) (customer_tally transactions) l /\
    Permutation customers l.
Proof.
  unfold customer_analysis. intros H. apply bind_ok in H.
  destruct H as [l [Hl H]]. inversion H; subst. exists l. split.
  - now apply map_result_Forall2.
  - apply sorted_by_perm.
Qed.

Lemma customer_row_fields kv kv' :
  customer_row kv = Ok kv' ->
  fst kv' = fst kv /\
  Customer.total_spent (snd kv') = round2 (fst (fst (snd kv))) /\
  Customer.purchase_count (snd kv') = snd (fst (snd kv)) /\
  (exists q, fdiv (fst (fst (snd kv))) (of_int (Z.of_nat (snd (fst (snd kv)))))
             = Ok q /\
             Customer.avg_order_value (snd kv') = round2 q) /\
  Customer.products_bought (snd kv') = snd (snd kv).
Proof.
  unfold customer_row. intros H. apply bind_ok in H.
  destruct H as [q [Hq H]]. inversion H; subst; simpl. eauto 10.
Qed.

Lemma customer_row_keys d l :
  Forall2 (fun x y => customer_row x = Ok y) d l -> map fst l = map fst d.
Proof.
  induction 1 as [| x y d l H _ IH]; simpl; [reflexivity |].
  apply customer_row_fields in H. destruct H as [E _]. now rewrite E, IH.
Qed.

Lemma customer_analysis_ok transactions :
  exists customers, customer_analysis transactions = Ok customers.
Proof.
  unfold customer_analysis.
  destruct (map_result_total customer_row (customer_tally transactions))
    as [l Hl].
  - intros [cid d] I. apply customer_tally_entry in I.
    destruct I as [Hne [_ [Hc _]]]. unfold customer_row. cbn [fst snd].
    destruct (@fdiv_returns (fst (fst d)) (of_int (Z.of_nat (snd (fst d)))))
      as [q Hq].
    + rewrite Hc. destruct (of_customer cid transactions); [congruence |].
      reflexivity.
    + rewrite Hq. cbn [bind]. eauto.
  - unfold customer_row in Hl. rewrite Hl. simpl. eauto.
Qed.

(** X8. [customer_analysis] never raises a [ZeroDivisionError]: the
    purchase count it divides by is at least 1 for every customer it has
    registered. *)
Theorem customer_analysis_no_zero_division :
  forall transactions,
    customer_analysis transactions <> Raise ZeroDivisionError.
Proof.
  intros transactions.
  destruct (customer_analysis_ok transactions) as [customers E].
  rewrite E. discriminate.
Qed.

Lemma customer_analysis_keys transactions customers :
  customer_analysis transactions = Ok customers ->
  Permutation (map fst customers) (map fst (customer_tally transactions)).
Proof.
  intros H. apply customer_analysis_inv in H. destruct H as [l [F P]].
  rewrite <- (@customer_row_keys _ _ F). now apply Permutation_map.
Qed.

Lemma customer_analysis_entry transactions customers cid s :
  customer_analysis transactions = Ok customers ->
  In (cid, s) customers ->
  of_customer cid transactions <> [] /\
  Customer.total_spent s
    = round2 (calculate_total_revenue (of_customer cid transactions)) /\
  Customer.purchase_count s = List.length (of_customer cid transactions) /\
  (exists q,
      fdiv (calculate_total_revenue (of_customer cid transactions))
           (of_int (Z.of_nat (List.length (of_customer cid transactions))))
      = Ok q /\
      Customer.avg_order_value s = round2 q) /\
  Customer.products_bought s
    = distinct (map ProductName (of_customer cid transactions)).
Proof.
  intros H I. apply customer_analysis_inv in H. destruct H as [l [F P]].
  apply (Permutation_in _ P) in I.
  destruct (@Forall2_In_r _ _ _ _ _ _ F I) as [[c0 d] [It Hr]].
  apply customer_row_fields in Hr. simpl in Hr.
  destruct Hr as [Ec [Et [Ep [[q [Hq Ea]] Eb]]]]. subst c0.
  apply customer_tally_entry in It. destruct It as [Hne [T [C B]]].
  rewrite T in Et, Hq. rewrite C in Ep, Hq. rewrite B in Eb.
  split; [exact Hne |]. split; [exact Et |]. split; [exact Ep |].
  split; [eauto | exact Eb].
Qed.

(** X9. In the result of [customer_analysis] every customer of the input is
    listed once and no other; a customer's entry carries the revenue of that
    customer's transactions rounded to cents, their number, and the rounded
    quotient of the two. *)
Theorem customer_analysis_groups :
  forall transactions customers,
    customer_analysis transactions = Ok customers ->
    NoDup (map fst customers) /\
    (forall cid, In cid (map fst customers) <->
                 In cid (map CustomerID transactions)) /\
    (forall cid s,
        In (cid, s) customers ->
        let mine := of_customer cid transactions in
        Customer.total_spent s = round2 (calculate_total_revenue mine) /\
        Customer.purchase_count s = List.length mine /\
        exists q,
          fdiv (calculate_total_revenue mine)
               (of_int (Z.of_nat (List.length mine))) = Ok q /\
          Customer.avg_order_value s = round2 q).
Proof.
  intros transactions customers H.
  pose proof (@customer_analysis_keys _ _ H) as PK.
  split; [| split].
  - apply (Permutation_NoDup (Permutation_sym PK)), customer_tally_NoDup.
  - intros cid. rewrite <- customer_tally_keys. split; apply Permutation_in;
      [exact PK | now apply Permutation_sym].
  - intros cid s I mine.
    destruct (@customer_analysis_entry _ _ _ _ H I) as [_ [T [C [A _]]]]. auto.
Qed.

Lemma customer_analysis_groups_witness :
  customer_analysis sample_cleaned = Ok sample_customers /\
  NoDup (map fst sample_customers) /\
  (forall cid, In cid (map fst sample_customers) <->
               In cid (map CustomerID sample_cleaned)).
Proof.
  assert (E : customer_analysis sample_cleaned = Ok sample_customers)
    by (vm_compute; reflexivity).
  destruct (@customer_analysis_groups sample_cleaned sample_customers E)
    as [N [K _]].
  split; [exact E |]. split; [exact N | exact K].
Defined.

(** X10. The [products_bought] of a customer in the result of
    [customer_analysis] holds no product name twice, and holds a name exactly
    when some transaction of that customer has it as [ProductName]. *)
Theorem customer_products_bought :
  forall transactions customers cid s,
    customer_analysis transactions = Ok customers ->
    In (cid, s) customers ->
    NoDup (Customer.products_bought s) /\
    (forall name,
        In name (Customer.products_bought s) <->
        exists tx, In tx transactions /\ CustomerID tx = cid /\
                   ProductName tx = name).
Proof.
  intros transactions customers cid s H I.
  destruct (@customer_analysis_entry _ _ _ _ H I) as [_ [_ [_ [_ B]]]]. rewrite B.
  destruct (distinct_spec (map ProductName (of_customer cid transactions)))
    as [N [M _]].
  split; [exact N |]. intros name. rewrite M, in_map_iff. split.
  - intros [tx [E F]]. apply filter_In in F. destruct F as [F C].
    apply String.eqb_eq in C. eauto.
  - intros [tx [F [C E]]]. exists tx. split; [exact E |].
    apply filter_In. split; [exact F | now apply String.eqb_eq].
Qed.

Lemma customer_products_bought_witness :
  customer_analysis sample_cleaned = Ok sample_customers /\
  In ("C1", sample_c1) sample_customers /\
  NoDup (Customer.products_bought sample_c1).
Proof.
  assert (E : customer_analysis sample_cleaned = Ok sample_customers)
    by (vm_compute; reflexivity).
  assert (I : In ("C1", sample_c1) sample_customers) by (simpl; auto).
  split; [exact E |]. split; [exact I |].
  exact (proj1 (@customer_products_bought _ _ _ _ E I)).
Defined.

Lemma round2_not_NaN x : x <> NaN -> round2 x <> NaN.
Proof. destruct x; simpl; congruence. Qed.

(** X11. On a collection of records with [Quantity > 0] and
    [UnitPrice > 0], the result of [customer_analysis] is in descending
    order of [total_spent]. *)
Theorem customer_analysis_descending :
  forall transactions customers,
    Forall positive_sale transactions ->
    customer_analysis transactions = Ok customers ->
    StronglySorted
      (fun a b => fle (Customer.total_spent (snd b))
                      (Customer.total_spent (snd a)) = true)
      customers.
Proof.
  intros transactions customers Pos H.
  assert (Entry : forall cid s, In (cid, s) customers ->
                  Customer.total_spent s <> NaN).
  { intros cid s I.
    destruct (@customer_analysis_entry _ _ _ _ H I) as [Hne [T _]]. rewrite T.
    apply round2_not_NaN, revenue_positive_not_NaN; [exact Hne |].
    apply Forall_forall. intros tx Itx. apply filter_In in Itx.
    rewrite Forall_forall in Pos. now apply Pos. }
  unfold customer_analysis in H. apply bind_ok in H.
  destruct H as [l [Hl H]]. inversion H; subst; clear H.
  apply sorted_by_sorted
    with (P := fun kv => Customer.total_spent (snd kv) <> NaN).
  - intros a b c Hab Hbc.
    now apply fle_trans with (Customer.total_spent (snd b)).
  - intros x y Hb. now apply flt_fle.
  - intros x y Px Py Hb. now apply not_flt_fle.
  - apply Forall_forall. intros [cid s] I. simpl.
    apply (Entry cid). now apply sorted_by_In.
Qed.

Lemma customer_analysis_descending_witness :
  Forall positive_sale sample_cleaned /\
  customer_analysis sample_cleaned = Ok sample_customers /\
  StronglySorted
    (fun a b => fle (Customer.total_spent (snd b))
                    (Customer.total_spent (snd a)) = true)
    sample_customers.
Proof.
  assert (F : Forall positive_sale sample_cleaned) by (repeat constructor).
  assert (E : customer_analysis sample_cleaned = Ok sample_customers)
    by (vm_compute; reflexivity).
  split; [exact F |]. split; [exact E |].
  exact (@customer_analysis_descending _ _ F E).
Defined.

End CustomerGroups.

(** ** Days, group by group *)

Section DailyGroups.

Local Open Scope string_scope.

Let daily_init : PyFloat * nat * list string := (fzero, 0, []).

Let daily_upd (tx : Transaction) (v : PyFloat * nat * list string) :=
  (fadd (fst (fst v)) (amount tx), S (snd (fst v)),
   set_add (CustomerID tx) (snd v)).

Lemma daily_tally_keys d transactions :
  In d (map fst (daily_tally transactions)) <-> In d (map Date transactions).
Proof. apply (group_keys Date daily_init daily_upd). Qed.

Lemma daily_tally_entry d v transactions :
  In (d, v) (daily_tally transactions) ->
  on_date d transactions <> [] /\
  fst (fst v) = calculate_total_revenue (on_date d transactions) /\
  snd (fst v) = List.length (on_date d transactions) /\
  snd v = distinct (map CustomerID (on_date d transactions)).
Proof.
  intros H. split; [| split; [| split]].
  - apply (key_selects_nonempty Date), daily_tally_keys.
    now apply (in_map fst) in H.
  - apply (@group_value _ _ Date daily_init daily_upd _
             (fun v => fst (fst v)) fzero (fun m tx => fadd m (amount tx))
             (fun _ _ => eq_refl) eq_refl) in H.
    destruct H as [_ H]. exact H.
  - apply (@group_value _ _ Date daily_init daily_upd _
             (fun v => snd (fst v)) 0 (fun m _ => S m)
             (fun _ _ => eq_refl) eq_refl) in H.
    destruct H as [_ H]. rewrite H. apply (fold_count _ 0).
  - apply (@group_value _ _ Date daily_init daily_upd _
             (fun v => snd v) [] (fun s tx => set_add (CustomerID tx) s)
             (fun _ _ => eq_refl) eq_refl) in H.
    destruct H as [_ H]. rewrite H. apply add_all_map.
Qed.

Lemma daily_sales_trend_entry d s transactions :
  In (d, s) (daily_sales_trend transactions) ->
  on_date d transactions <> [] /\
  Daily.revenue s = round2 (calculate_total_revenue (on_date d transactions)) /\
  Daily.transaction_count s = List.length (on_date d transactions) /\
  Daily.unique_customers s
    = List.length (distinct (map CustomerID (on_date d transactions))).
Proof.
  unfold daily_sales_trend. intros H. apply sorted_by_In in H.
  apply in_map_iff in H. destruct H as [[d0 v] [E I]].
  inversion E; subst; clear E. simpl.
  apply daily_tally_entry in I. destruct I as [Hne [R [C U]]].
  rewrite R, C, U. auto.
Qed.

(** X12. [daily_sales_trend] lists exactly the dates of the input; the
    entry of a date carries the revenue of that date's transactions rounded
    to cents, their number, and the number of distinct [CustomerID]s among
    them. *)
Theorem daily_sales_trend_groups :
  forall transactions,
    (forall d, In d (map fst (daily_sales_trend transactions)) <->
               In d (map Date transactions)) /\
    (forall d s,
        In (d, s) (daily_sales_trend transactions) ->
        let that_day := on_date d transactions in
        Daily.revenue s = round2 (calculate_total_revenue that_day) /\
        Daily.transaction_count s = List.length that_day /\
        Daily.unique_customers s
          = List.length (nodup string_dec (map CustomerID that_day))).
Proof.
  intros transactions. split.
  - intros d. rewrite <- daily_tally_keys. unfold daily_sales_trend.
    assert (K : forall l : dict (PyFloat * nat * list string),
              map fst (map (fun kv : string * (PyFloat * nat * list string) =>
                              (fst kv,
                               {| Daily.revenue := round2 (fst (fst (snd kv)));
                                  Daily.transaction_count := snd (fst (snd kv));
                                  Daily.unique_customers :=
                                    List.length (snd (snd kv)) |})) l)
              = map fst l).
    { intros l. rewrite map_map. reflexivity. }
    rewrite <- K. split; apply Permutation_in.
    + apply Permutation_map, sorted_by_perm.
    + apply Permutation_map, Permutation_sym, sorted_by_perm.
  - intros d s I that_day. apply daily_sales_trend_entry in I.
    destruct I as [_ [R [C U]]]. fold that_day in R, C, U.
    split; [exact R |]. split; [exact C |]. rewrite U.
    destruct (distinct_spec (map CustomerID that_day)) as [N [M _]].
    apply Permutation_length, NoDup_Permutation; [exact N | apply NoDup_nodup |].
    intros c. rewrite M, nodup_In. reflexivity.
Qed.

(** X13. In every entry of [daily_sales_trend] the number of unique
    customers is at least 1 and at most the number of transactions of the
    day. *)
Theorem daily_unique_customers_bounds :
  forall transactions,
    Forall (fun kv =>
              1 <= Daily.unique_customers (snd kv)
                <= Daily.transaction_count (snd kv))
           (daily_sales_trend transactions).
Proof.
  intros transactions. apply Forall_forall. intros [d s] I. simpl.
  apply daily_sales_trend_entry in I. destruct I as [Hne [_ [C U]]].
  rewrite C, U.
  destruct (distinct_spec (map CustomerID (on_date d transactions)))
    as [_ [_ L]].
  rewrite length_map in L. split; [| exact L].
  apply distinct_nonempty. intros E. apply map_eq_nil in E. contradiction.
Qed.

End DailyGroups.

(** ** More on the record cleaner *)

Section CleanerMore.

Local Open Scope string_scope.

Lemma cleaned_records_invariant_witness :
  parse_and_clean_data sample_lines = Ok (sample_cleaned, 1) /\
  Forall cleaned_invariant sample_cleaned.
Proof.
  assert (H : parse_and_clean_data sample_lines = Ok (sample_cleaned, 1))
    by (vm_compute; reflexivity).
  split; [exact H |].
  exact (@cleaned_records_invariant _ _ _ H).
Defined.

Lemma for_each_clean_raises raw_lines : forall st e,
  for_each clean_step raw_lines st = Raise e ->
  e = IndexError /\
  exists entry, In entry raw_lines /\ indexes_empty_field entry.
Proof.
  induction raw_lines as [| entry rest IH]; simpl; intros st e H;
    [discriminate |].
  destruct st as [cleaned invalid]. unfold clean_step at 1 in H.
  destruct (clean_entry entry) as [r | e0] eqn:E.
  - cbn [bind] in H. destruct r as [tx |]; cbn [bind] in H;
      apply IH in H; destruct H as [-> [x [I Hx]]]; eauto.
  - cbn [bind] in H. inversion H; subst.
    apply clean_entry_raises in E. destruct E as [-> E]. eauto.
Qed.

Lemma for_each_clean_hits raw_lines : forall st entry,
  In entry raw_lines -> indexes_empty_field entry ->
  exists e, for_each clean_step raw_lines st = Raise e.
Proof.
  induction raw_lines as [| x rest IH]; simpl; intros st entry I Hx;
    [destruct I |].
  destruct st as [cleaned invalid]. unfold clean_step at 1.
  destruct (clean_entry x) as [r | e0] eqn:E.
  - destruct I as [-> | I].
    + assert (R : clean_entry entry = Raise IndexError)
        by (apply clean_entry_raises; auto).
      congruence.
    + cbn [bind]. destruct r as [tx |]; cbn [bind]; now apply IH with entry.
  - cbn [bind]. eauto.
Qed.

(** X15. [parse_and_clean_data] raises exactly when some line makes it
    index an empty field: a line of eight fields whose [TransactionID] is
    empty, or whose [TransactionID] starts with [T] and whose [ProductID] is
    empty.  What it raises is an [IndexError]. *)
Theorem parse_and_clean_data_raises_iff :
  forall raw_lines,
    ((exists e, parse_and_clean_data raw_lines = Raise e) <->
     (exists entry, In entry raw_lines /\ indexes_empty_field entry)) /\
    (forall e, parse_and_clean_data raw_lines = Raise e -> e = IndexError).
Proof.
  intros raw_lines. unfold parse_and_clean_data. split; [split |].
  - intros [e H]. now apply for_each_clean_raises in H.
  - intros [entry [I H]]. now apply for_each_clean_hits with entry.
  - intros e H. now apply for_each_clean_raises in H.
Qed.

Lemma for_each_clean_shift raw_lines : forall st st',
  for_each clean_step raw_lines st = Ok st' ->
  forall cleaned0 invalid0,
    for_each clean_step raw_lines
      ((cleaned0 ++ fst st)%list, invalid0 + snd st)
    = Ok ((cleaned0 ++ fst st')%list, invalid0 + snd st').
Proof.
  induction raw_lines as [| entry rest IH]; simpl; intros st st' H c0 i0.
  - inversion H. reflexivity.
  - apply bind_ok in H. destruct H as [st1 [H1 H2]].
    destruct st as [cleaned invalid]. unfold clean_step in H1 |- *.
    destruct (clean_entry entry) as [[tx |] | e]; cbn [bind] in *;
      inversion H1; subst; clear H1; simpl.
    + rewrite <- app_assoc. apply (IH _ _ H2 c0 i0).
    + rewrite <- Nat.add_succ_r. apply (IH _ _ H2 c0 i0).
Qed.

Lemma for_each_app {A S : Type} (body : S -> A -> result S) xs ys : forall acc,
  for_each body (xs ++ ys) acc = bind (for_each body xs acc) (for_each body ys).
Proof.
  induction xs as [| x xs IH]; simpl; intros acc; [reflexivity |].
  destruct (body acc x) as [acc' | e]; simpl; [apply IH | reflexivity].
Qed.

(** X16. Cleaning is compositional: when the cleaner returns on two batches
    of lines, it returns on their concatenation with the cleaned records of
    the first batch followed by those of the second, and the sum of the two
    invalid counts. *)
Theorem parse_and_clean_data_app :
  forall lines1 lines2 cleaned1 invalid1 cleaned2 invalid2,
    parse_and_clean_data lines1 = Ok (cleaned1, invalid1) ->
    parse_and_clean_data lines2 = Ok (cleaned2, invalid2) ->
    parse_and_clean_data (lines1 ++ lines2)
    = Ok ((cleaned1 ++ cleaned2)%list, invalid1 + invalid2).
Proof.
  unfold parse_and_clean_data.
  intros lines1 lines2 cleaned1 invalid1 cleaned2 invalid2 H1 H2.
  rewrite for_each_app, H1. cbn [bind].
  pose proof (for_each_clean_shift _ _ H2 cleaned1 invalid1) as S.
  simpl in S. rewrite app_nil_r, Nat.add_0_r in S. exact S.
Qed.

Lemma parse_and_clean_data_app_witness :
  parse_and_clean_data sample_lines = Ok (sample_cleaned, 1) /\
  parse_and_clean_data (sample_lines ++ sample_lines)
  = Ok ((sample_cleaned ++ sample_cleaned)%list, 2).
Proof.
  assert (H : parse_and_clean_data sample_lines = Ok (sample_cleaned, 1))
    by (vm_compute; reflexivity).
  split; [exact H |].
  exact (@parse_and_clean_data_app _ _ _ _ _ _ H H).
Defined.

End CleanerMore.

(** ** More on the region filter *)

Section FilterMore.

Lemma filter_twice {A : Type} (f : A -> bool) l :
  filter f (filter f l) = filter f l.
Proof.
  induction l as [| x l IH]; simpl; [reflexivity |].
  destruct (f x) eqn:E; simpl; [now rewrite E, IH | exact IH].
Qed.

Lemma filter_shorter {A : Type} (f : A -> bool) l :
  List.length (filter f l) <= List.length l.
Proof.
  induction l as [| x l IH]; simpl; [lia |].
  destruct (f x); simpl; lia.
Qed.

(** X17. Filtering by a region never adds records, and filtering the
    result again by the same region changes nothing: the result has at most
    as many records as the input, and is its own filtered form. *)
Theorem validate_and_filter_sales_idempotent :
  forall cleaned_data selected,
    let kept := fst (validate_and_filter_sales cleaned_data (Some selected)) in
    List.length kept <= List.length cleaned_data /\
    fst (validate_and_filter_sales kept (Some selected)) = kept.
Proof.
  intros cleaned_data selected.
  destruct cleaned_data as [| row rest]; [simpl; auto |].
  cbv zeta. cbn [validate_and_filter_sales fst].
  set (f := fun row : Transaction =>
              String.eqb (lower (Region row)) (lower (strip selected))).
  split; [apply filter_shorter |].
  destruct (filter f (row :: rest)) as [| row' rest'] eqn:E; [reflexivity |].
  cbn [validate_and_filter_sales fst]. fold f. rewrite <- E.
  apply filter_twice.
Qed.

End FilterMore.

(** ** More on the enrichment *)

Section EnrichmentMore.

Local Open Scope string_scope.

Lemma contains_unfold sub s :
  contains sub s =
  String.prefix sub s ||
  match s with
  | EmptyString => false
  | String _ s' => contains sub s'
  end.
Proof. destruct s; reflexivity. Qed.

Lemma prefix_app_contains a : forall b s,
  String.prefix (a ++ b) s = true -> contains b s = true.
Proof.
  induction a as [| c a IH]; simpl; intros b s H.
  - rewrite contains_unfold, H. reflexivity.
  - destruct s as [| c' s]; simpl in H; [discriminate H |].
    destruct (ascii_dec c c'); [| discriminate H].
    rewrite contains_unfold. apply IH in H. rewrite H. apply orb_true_r.
Qed.

(** A text that contains [a ++ b] contains [b]. *)
Lemma contains_app_r a b s :
  contains (a ++ b) s = true -> contains b s = true.
Proof.
  induction s as [| c s IH]; rewrite (contains_unfold (a ++ b)); intros H.
  - rewrite orb_false_r in H. now apply prefix_app_contains in H.
  - apply orb_true_iff in H. destruct H as [H | H].
    + now apply prefix_app_contains in H.
    + rewrite contains_unfold, (IH H). apply orb_true_r.
Qed.

(** X18. In the storage rule of the enrichment the test for
    [external hard drive] never decides: every name that contains it
    contains [hard drive], so the rule fires exactly on the names that
    contain [hard drive]. *)
Theorem external_hard_drive_is_shadowed :
  forall name,
    (contains "external hard drive" name || contains "hard drive" name)
    = contains "hard drive" name.
Proof.
  intros name. destruct (contains "external hard drive" name) eqn:E;
    [| reflexivity].
  symmetry. apply (contains_app_r "external " "hard drive" name E).
Qed.

Ltac split_on_each_keyword name :=
  repeat match goal with
         | |- context [contains ?k name] =>
             destruct (contains k name); simpl
         end.

Lemma business_mapping_unknown name :
  let '(c, b, r, m) := business_mapping name in
  (m = false <-> c = "Unknown") /\
  (m = false <-> b = "Unknown") /\
  (m = false <-> r = Fin 0).
Proof.
  unfold business_mapping. split_on_each_keyword name;
    repeat split; intros H; try reflexivity; discriminate H.
Qed.

(** X19. In the result of [enrich_sales_data] the unmatched records are
    exactly those with category [Unknown], exactly those with brand
    [Unknown] and exactly those with rating [0.0]. *)
Theorem unmatched_records_are_unknown :
  forall transactions product_mapping,
    Forall (fun e =>
              (API_Match e = false <-> API_Category e = "Unknown") /\
              (API_Match e = false <-> API_Brand e = "Unknown") /\
              (API_Match e = false <-> API_Rating e = Fin 0))
           (enrich_sales_data transactions product_mapping).
Proof.
  intros transactions product_mapping. rewrite enrich_sales_data_map.
  apply Forall_forall. intros e H. apply in_map_iff in H.
  destruct H as [tx [<- _]]. unfold enrich_one.
  pose proof (business_mapping_unknown (lower (ProductName tx))) as U.
  destruct (business_mapping (lower (ProductName tx))) as [[[c b] r] m].
  exact U.
Qed.

End EnrichmentMore.

(** ** More on the report *)

Section ReportMore.

Variable now : string.
Variable format_money : PyFloat -> string.
Variable str_float : PyFloat -> string.

Let report := generate_sales_report now format_money str_float.

Lemma of_nat_zero n : fis_zero (of_int (Z.of_nat n)) = true <-> n = 0.
Proof.
  unfold fis_zero, of_int, is_zero. simpl. rewrite Z.eqb_eq. lia.
Qed.

Lemma report_is_written transactions enriched_transactions :
  transactions <> [] ->
  fis_zero (calculate_total_revenue transactions) = false ->
  enriched_transactions <> [] ->
  exists document, report transactions enriched_transactions = Ok document.
Proof.
  intros Hne Z He. destruct transactions as [| tx rest]; [congruence |].
  unfold report, generate_sales_report. cbn [map py_min py_max bind].
  destruct (@region_wise_sales_ok (tx :: rest) Z) as [regions ->].
  cbn [bind].
  destruct (customer_analysis_ok (tx :: rest)) as [customers ->].
  cbn [bind].
  destruct (find_peak_sales_day (tx :: rest)) as [[peak_date peak_revenue] peak_count].
  destruct (@fdiv_returns
              (of_int (Z.of_nat (List.length (filter API_Match enriched_transactions))))
              (of_int (Z.of_nat (List.length enriched_transactions))))
    as [rate ->].
  { destruct (fis_zero (of_int (Z.of_nat (List.length enriched_transactions))))
      eqn:E; [| reflexivity].
    apply of_nat_zero in E. destruct enriched_transactions; [congruence |].
    discriminate E. }
  cbn [bind].
  destruct (@fdiv_returns (calculate_total_revenue (tx :: rest))
              (of_int (Z.of_nat (List.length (tx :: rest)))))
    as [average ->]; [reflexivity |].
  cbn [bind]. eauto.
Qed.

(** X20. [generate_sales_report] produces its document only when there is
    at least one transaction and at least one enriched record: without
    transactions [min] raises, and without enriched records the success
    rate is a division by zero. *)
Theorem generate_sales_report_needs_records :
  forall transactions enriched_transactions document,
    generate_sales_report now format_money str_float
      transactions enriched_transactions = Ok document ->
    transactions <> [] /\ enriched_transactions <> [].
Proof.
  intros transactions enriched_transactions document H.
  destruct transactions as [| tx rest]; [discriminate H |].
  split; [discriminate |]. intros ->.
  unfold generate_sales_report in H. cbn [map py_min py_max bind] in H.
  destruct (region_wise_sales (tx :: rest)); [| discriminate H].
  cbn [bind] in H.
  destruct (customer_analysis (tx :: rest)); [| discriminate H].
  cbn [bind] in H.
  destruct (find_peak_sales_day (tx :: rest)) as [[peak_date peak_revenue] peak_count].
  discriminate H.
Qed.

(** Floats above zero or NaN: what [price <= 0] lets through. *)
Let above (x : PyFloat) : Prop := fle x fzero = false.

Lemma fle_fzero_false_fin q : fle (Fin q) fzero = false <-> (0 < q)%Q.
Proof.
  simpl. split; intros H.
  - apply Qnot_le_lt. intros L. apply Qle_bool_iff in L. congruence.
  - destruct (Qle_bool q 0) eqn:E; [| reflexivity].
    apply Qle_bool_iff in E. exfalso. now apply (Qlt_not_le 0 q).
Qed.

Lemma fmul_above z p :
  (0 < z)%Z -> above p -> above (fmul (of_int z) p).
Proof.
  unfold above. intros Hz. destruct p as [q | | |]; try discriminate;
    try reflexivity.
  - intros Hq. apply fle_fzero_false_fin in Hq.
    change (fle (Fin (Qred ((z # 1) * q))) fzero = false).
    apply fle_fzero_false_fin. rewrite Qred_correct.
    apply Qmult_lt_0_compat; [| exact Hq]. unfold Qlt. simpl. lia.
  - intros _. simpl. unfold is_zero, is_neg. simpl.
    destruct (Z.eqb_spec z 0); [lia |].
    destruct (Z.ltb_spec z 0); [lia | reflexivity].
Qed.

Lemma fadd_above a b :
  flt a fzero = false -> above b -> above (fadd a b).
Proof.
  unfold above.
  destruct a as [p | | |], b as [q | | |]; try discriminate; try reflexivity.
  intros Ha Hb. apply fle_fzero_false_fin in Hb.
  change (fle (Fin (Qred (p + q))) fzero = false).
  apply fle_fzero_false_fin. rewrite Qred_correct.
  assert (P : (0 <= p)%Q).
  { simpl in Ha. apply negb_false_iff in Ha. now apply Qle_bool_iff. }
  apply Qlt_le_trans with (0 + q)%Q.
  - now rewrite Qplus_0_l.
  - apply Qplus_le_compat; [exact P | apply Qle_refl].
Qed.

Lemma above_not_below x : above x -> flt x fzero = false.
Proof.
  unfold above. destruct x as [q | | |]; try discriminate; try reflexivity.
  intros H. apply fle_fzero_false_fin in H. simpl.
  apply negb_false_iff, Qle_bool_iff. now apply Qlt_le_weak.
Qed.

Lemma above_not_zero x : above x -> fis_zero x = false.
Proof.
  unfold above. destruct x as [q | | |]; try discriminate; try reflexivity.
  intros H. apply fle_fzero_false_fin in H. simpl. unfold is_zero.
  apply Z.eqb_neq. unfold Qlt in H. simpl in H. lia.
Qed.

Lemma cleaned_revenue_loop transactions : forall acc,
  Forall cleaned_invariant transactions ->
  above acc \/ (flt acc fzero = false /\ transactions <> []) ->
  above (fold_left (fun total tx => fadd total (amount tx)) transactions acc).
Proof.
  induction transactions as [| tx rest IH]; simpl; intros acc F H.
  - destruct H as [H | [_ H]]; [exact H | congruence].
  - inversion F as [| ? ? Inv F']; subst. apply IH; [exact F' |]. left.
    apply fadd_above.
    + destruct H as [H | [H _]]; [now apply above_not_below | exact H].
    + apply fmul_above; [apply (cl_quantity Inv) | apply (cl_price Inv)].
Qed.

(** X22. On records that satisfy the cleaner's invariant the report never
    raises a [ZeroDivisionError], given at least one enriched record: the
    total revenue, every purchase count and both lengths are not zero.  In
    particular this holds for the records together with their enrichment
    under any catalog mapping. *)
Theorem cleaned_records_no_zero_division :
  forall transactions,
    Forall cleaned_invariant transactions ->
    (forall enriched_transactions,
        enriched_transactions <> [] ->
        generate_sales_report now format_money str_float
          transactions enriched_transactions <> Raise ZeroDivisionError) /\
    (forall product_mapping,
        generate_sales_report now format_money str_float
          transactions (enrich_sales_data transactions product_mapping)
        <> Raise ZeroDivisionError).
Proof.
  intros transactions F.
  assert (G : forall enriched_transactions,
             enriched_transactions <> [] ->
             report transactions enriched_transactions <> Raise ZeroDivisionError).
  { intros enriched_transactions He.
    destruct transactions as [| tx rest]; [discriminate |].
    destruct (@report_is_written (tx :: rest) enriched_transactions)
      as [document E]; [discriminate | | exact He |].
    - apply above_not_zero, cleaned_revenue_loop; [exact F |].
      right. split; [reflexivity | discriminate].
    - rewrite E. discriminate. }
  split; [exact G |].
  intros product_mapping. destruct transactions as [| tx rest]; [discriminate |].
  apply G. rewrite enrich_sales_data_map. discriminate.
Qed.

End ReportMore.

Lemma generate_sales_report_needs_records_witness :
  exists document,
    generate_sales_report EmptyString (fun _ => EmptyString) (fun _ => EmptyString)
      sample_cleaned (enrich_sales_data sample_cleaned []) = Ok document /\
    sample_cleaned <> [] /\ enrich_sales_data sample_cleaned [] <> [].
Proof.
  eexists. 
  assert (H : generate_sales_report EmptyString (fun _ => EmptyString)
                (fun _ => EmptyString)
                sample_cleaned (enrich_sales_data sample_cleaned []) = Ok _)
    by (vm_compute; reflexivity).
  split; [exact H |].
  exact (@generate_sales_report_needs_records
           EmptyString (fun _ => EmptyString) (fun _ => EmptyString)
           sample_cleaned (enrich_sales_data sample_cleaned []) _ H).
Defined.

Lemma cleaned_records_no_zero_division_witness :
  Forall cleaned_invariant sample_cleaned /\
  generate_sales_report EmptyString (fun _ => EmptyString) (fun _ => EmptyString)
    sample_cleaned (enrich_sales_data sample_cleaned [])
  <> Raise ZeroDivisionError.
Proof.
  assert (H : parse_and_clean_data sample_lines = Ok (sample_cleaned, 1))
    by (vm_compute; reflexivity).
  apply for_each_clean_invariant in H; [| constructor]. simpl in H.
  split; [exact H |].
  exact (proj2 (@cleaned_records_no_zero_division
                  EmptyString (fun _ => EmptyString) (fun _ => EmptyString)
                  sample_cleaned H) []).
Defined.

(** ** The catalog mapping *)

Section MappingFacts.

Local Open Scope string_scope.

Lemma lower_char_idem c : lower_char (lower_char c) = lower_char c.
Proof. destruct c as [[] [] [] [] [] [] [] []]; reflexivity. Qed.

Lemma isspace_lower_char c : isspace (lower_char c) = isspace c.
Proof. destruct c as [[] [] [] [] [] [] [] []]; reflexivity. Qed.

Lemma lower_idem s : lower (lower s) = lower s.
Proof.
  induction s as [| c s IH]; simpl; [reflexivity |].
  now rewrite lower_char_idem, IH.
Qed.

Lemma lstrip_lower s : lstrip_of isspace (lower s) = lower (lstrip_of isspace s).
Proof.
  induction s as [| c s IH]; simpl; [reflexivity |].
  rewrite isspace_lower_char. destruct (isspace c); [exact IH | reflexivity].
Qed.

Lemma rstrip_lower s : rstrip_of isspace (lower s) = lower (rstrip_of isspace s).
Proof.
  induction s as [| c s IH]; simpl; [reflexivity |].
  rewrite IH, isspace_lower_char.
  destruct (rstrip_of isspace s) as [| a r]; simpl; [| reflexivity].
  destruct (isspace c); reflexivity.
Qed.

(** Trimming and lower-casing commute. *)
Lemma strip_lower s : strip (lower s) = lower (strip s).
Proof. unfold strip, strip_of. now rewrite rstrip_lower, lstrip_lower. Qed.

Lemma lstrip_idem s : lstrip_of isspace (lstrip_of isspace s) = lstrip_of isspace s.
Proof.
  induction s as [| c s IH]; simpl; [reflexivity |].
  destruct (isspace c) eqn:E; [exact IH |]. simpl. now rewrite E.
Qed.

Lemma rstrip_idem s : rstrip_of isspace (rstrip_of isspace s) = rstrip_of isspace s.
Proof.
  induction s as [| c s IH]; simpl; [reflexivity |].
  destruct (rstrip_of isspace s) as [| a r] eqn:R.
  - destruct (isspace c) eqn:E; simpl; [reflexivity | now rewrite E].
  - change (rstrip_of isspace (String c (String a r)) = String c (String a r)).
    cbn [rstrip_of]. fold (rstrip_of isspace (String a r)).
    change (match rstrip_of isspace (String a r) with
            | EmptyString => if isspace c then EmptyString else String c EmptyString
            | String a0 s0 => String c (String a0 s0)
            end = String c (String a r)).
    now rewrite IH.
Qed.

Lemma rstrip_fixed_tail c u :
  rstrip_of isspace (String c u) = String c u -> rstrip_of isspace u = u.
Proof.
  simpl. destruct (rstrip_of isspace u) as [| a r] eqn:R.
  - destruct (isspace c); intros H; inversion H. reflexivity.
  - intros H. now inversion H.
Qed.

Lemma rstrip_lstrip u :
  rstrip_of isspace u = u ->
  rstrip_of isspace (lstrip_of isspace u) = lstrip_of isspace u.
Proof.
  induction u as [| c u IH]; intros H; [reflexivity |].
  cbn [lstrip_of]. destruct (isspace c); [| exact H].
  apply IH. now apply rstrip_fixed_tail with c.
Qed.

(** Trimming twice is trimming once. *)
Lemma strip_idem s : strip (strip s) = strip s.
Proof.
  unfold strip, strip_of.
  rewrite (rstrip_lstrip (rstrip_idem s)). apply lstrip_idem.
Qed.

Let store (mapping : ProductCatalogMapping) (item : ApiProduct) :=
  match item_title item with
  | None => mapping
  | Some t =>
      if is_empty t then mapping
      else dict_set (strip (lower t)) (entry_of t item) mapping
  end.

Lemma create_product_mapping_fold api_products :
  create_product_mapping api_products = fold_left store api_products [].
Proof. reflexivity. Qed.

Lemma store_cases mapping item :
  match clean_title_of item with
  | None => store mapping item = mapping
  | Some k =>
      exists t, item_title item = Some t /\ t <> "" /\ k = strip (lower t) /\
                store mapping item = dict_set k (entry_of t item) mapping
  end.
Proof.
  unfold clean_title_of, store. destruct (item_title item) as [t |];
    [| reflexivity].
  destruct t as [| c t]; simpl; [reflexivity |].
  exists (String c t). repeat split. discriminate.
Qed.

Lemma dict_set_keys {V : Type} k v (d : dict V) k' :
  In k' (map fst (dict_set k v d)) <-> k' = k \/ In k' (map fst d).
Proof.
  rewrite !dict_get_keys. setoid_rewrite dict_get_set.
  destruct (String.eqb_spec k' k) as [-> | N].
  - split; eauto.
  - split; [intros H; now right | intros [H | H]; [contradiction | exact H]].
Qed.

Lemma dict_set_NoDup {V : Type} k v (d : dict V) :
  NoDup (map fst d) -> NoDup (map fst (dict_set k v d)).
Proof.
  induction d as [| [k0 v0] d IH]; simpl; intros N.
  - constructor; [tauto | constructor].
  - inversion N as [| ? ? Hn N']; subst.
    destruct (String.eqb_spec k k0) as [-> | Hk]; simpl.
    + constructor; assumption.
    + constructor; [| now apply IH].
      intros H. apply dict_set_keys in H. destruct H as [H | H];
        [congruence | contradiction].
Qed.

Lemma store_loop_keys api_products : forall mapping,
  NoDup (map fst mapping) ->
  Forall (fun k => lower k = k /\ strip k = k) (map fst mapping) ->
  NoDup (map fst (fold_left store api_products mapping)) /\
  Forall (fun k => lower k = k /\ strip k = k)
         (map fst (fold_left store api_products mapping)).
Proof.
  induction api_products as [| item rest IH]; simpl; intros mapping N F;
    [auto |].
  pose proof (store_cases mapping item) as C.
  destruct (clean_title_of item) as [k |].
  - destruct C as [t [_ [_ [Ek ->]]]]. apply IH.
    + now apply dict_set_NoDup.
    + apply Forall_forall. intros k' H. apply dict_set_keys in H.
      destruct H as [-> | H]; [| rewrite Forall_forall in F; now apply F].
      subst k. split.
      * now rewrite <- strip_lower, lower_idem.
      * apply strip_idem.
  - rewrite C. now apply IH.
Qed.

(** X23. The keys of [create_product_mapping] are pairwise distinct, and
    each is in lower case and free of surrounding whitespace. *)
Theorem create_product_mapping_keys :
  forall api_products,
    NoDup (map fst (create_product_mapping api_products)) /\
    Forall (fun k => lower k = k /\ strip k = k)
           (map fst (create_product_mapping api_products)).
Proof.
  intros api_products. rewrite create_product_mapping_fold.
  apply store_loop_keys; constructor.
Qed.

Lemma store_loop_skips k api_products : forall mapping,
  Forall (fun item => clean_title_of item <> Some k) api_products ->
  dict_get k (fold_left store api_products mapping) = dict_get k mapping.
Proof.
  induction api_products as [| item rest IH]; simpl; intros mapping F;
    [reflexivity |].
  inversion F as [| ? ? Hk F']; subst. rewrite (IH _ F').
  pose proof (store_cases mapping item) as C.
  destruct (clean_title_of item) as [k' |].
  - destruct C as [t [_ [_ [_ ->]]]]. rewrite dict_get_set.
    destruct (String.eqb_spec k k'); [congruence | reflexivity].
  - now rewrite C.
Qed.

Lemma fold_left_snoc {A B : Type} (f : A -> B -> A) l x a :
  fold_left f (l ++ [x]) a = f (fold_left f l a) x.
Proof. now rewrite fold_left_app. Qed.

(** X24. Looking a key up in [create_product_mapping] gives the entry of
    the last product whose title, lower-cased and trimmed, is that key;
    products without a title or with an empty title are never stored. *)
Theorem create_product_mapping_lookup :
  forall api_products k e,
    dict_get k (create_product_mapping api_products) = Some e <->
    exists earlier item later t,
      api_products = (earlier ++ item :: later)%list /\
      item_title item = Some t /\ t <> "" /\ k = strip (lower t) /\
      e = entry_of t item /\
      Forall (fun other => clean_title_of other <> Some k) later.
Proof.
  intros api_products k e. rewrite create_product_mapping_fold. split.
  - induction api_products as [| item l IH] using rev_ind; [discriminate |].
    rewrite fold_left_snoc.
    pose proof (store_cases (fold_left store l []) item) as C.
    destruct (clean_title_of item) as [k' |] eqn:K.
    + destruct C as [t [Ht [Hne [Ek ->]]]]. rewrite dict_get_set.
      destruct (String.eqb_spec k k') as [-> | N].
      * intros H. inversion H; subst e.
        exists l, item, [], t. repeat split; auto.
      * intros H. destruct (IH H)
          as [earlier [it [later [t' [El [Ht' [Hne' [Ek' [Ee F]]]]]]]]].
        exists earlier, it, (later ++ [item])%list, t'.
        repeat split; auto.
        -- rewrite El, <- app_assoc. reflexivity.
        -- apply Forall_app. split; [exact F |].
           constructor; [| constructor]. congruence.
    + rewrite C. intros H. destruct (IH H)
        as [earlier [it [later [t' [El [Ht' [Hne' [Ek' [Ee F]]]]]]]]].
      exists earlier, it, (later ++ [item])%list, t'.
      repeat split; auto.
      * rewrite El, <- app_assoc. reflexivity.
      * apply Forall_app. split; [exact F |].
        constructor; [| constructor]. congruence.
  - intros [earlier [item [later [t [-> [Ht [Hne [Ek [-> F]]]]]]]]].
    rewrite fold_left_app. simpl. rewrite (@store_loop_skips k later _ F).
    unfold store at 1. rewrite Ht.
    destruct t as [| c t]; [congruence |]. simpl is_empty. cbv iota.
    rewrite dict_get_set, Ek, String.eqb_refl. reflexivity.
Qed.

End MappingFacts.

(** ** Every transaction is counted once *)

Section CountTotals.

Variables T V : Type.
Variable key : T -> string.
Variable init : V.
Variable upd : T -> V -> V.
Variable g : V -> nat.

Hypothesis g_upd : forall tx v, g (upd tx v) = S (g v).
Hypothesis g_init : g init = 0.

Let counted (d : dict V) : nat := list_sum (map (fun kv => g (snd kv)) d).

Lemma dict_modify_counted k tx (d : dict V) :
  dict_contains k d = true ->
  counted (dict_modify k (upd tx) d) = S (counted d).
Proof.
  unfold counted, dict_contains.
  induction d as [| [k' v'] d IH]; simpl; [discriminate |].
  destruct (String.eqb k k'); simpl; intros H.
  - now rewrite g_upd.
  - rewrite (IH H). lia.
Qed.

Lemma tally_counted k tx (d : dict V) :
  counted (tally k init (upd tx) d) = S (counted d).
Proof.
  destruct (dict_contains k d) eqn:E.
  - rewrite (tally_present _ _ _ _ E). now apply dict_modify_counted.
  - rewrite (tally_absent _ _ _ _ E). unfold counted.
    rewrite map_app, list_sum_app. simpl. rewrite g_upd, g_init. lia.
Qed.

Lemma group_counted txs : forall d,
  counted (fold_left (fun d tx => tally (key tx) init (upd tx) d) txs d)
  = counted d + List.length txs.
Proof.
  induction txs as [| tx txs IH]; simpl; intros d; [lia |].
  rewrite IH, tally_counted. lia.
Qed.

End CountTotals.

Section CountedOnce.

Lemma list_sum_perm l l' : Permutation l l' -> list_sum l = list_sum l'.
Proof.
  unfold list_sum. induction 1; simpl; lia.
Qed.

(** X27. Whenever [region_wise_sales] returns, the [transaction_count]s of
    its entries add up to the number of transactions: each transaction is
    counted in exactly one region. *)
Theorem region_counts_add_up :
  forall transactions regions,
    region_wise_sales transactions = Ok regions ->
    list_sum (map (fun kv => RegionSales.transaction_count (snd kv)) regions)
    = List.length transactions.
Proof.
  intros transactions regions H.
  apply region_wise_sales_inv in H. destruct H as [l [F P]].
  rewrite (list_sum_perm (Permutation_map _ P)).
  assert (E : map (fun kv : string * RegionSales.summary =>
                     RegionSales.transaction_count (snd kv)) l
              = map (fun kv : string * RegionSales.tally_entry =>
                       RegionSales.count (snd kv)) (region_tally transactions)).
  { clear P. induction F as [| x y d l Hxy _ IH]; simpl; [reflexivity |].
    apply region_percentage_fields in Hxy. destruct Hxy as [_ [_ C]].
    now rewrite C, IH. }
  rewrite E.
  apply (@group_counted _ _ Region
           {| RegionSales.sales := fzero; RegionSales.count := 0 |}
           (fun tx e =>
              {| RegionSales.sales := fadd (RegionSales.sales e) (amount tx);
                 RegionSales.count := S (RegionSales.count e) |})
           RegionSales.count (fun _ _ => eq_refl) eq_refl transactions []).
Qed.

Lemma region_counts_add_up_witness :
  region_wise_sales sample_cleaned = Ok sample_regions /\
  list_sum (map (fun kv => RegionSales.transaction_count (snd kv)) sample_regions)
  = List.length sample_cleaned.
Proof.
  assert (H : region_wise_sales sample_cleaned = Ok sample_regions)
    by (vm_compute; reflexivity).
  split; [exact H |].
  exact (@region_counts_add_up _ _ H).
Defined.

(** X28. The [transaction_count]s of [daily_sales_trend] add up to the
    number of transactions: each transaction is counted on exactly one
    date. *)
Theorem daily_counts_add_up :
  forall transactions,
    list_sum (map (fun kv => Daily.transaction_count (snd kv))
                  (daily_sales_trend transactions))
    = List.length transactions.
Proof.
  intros transactions. unfold daily_sales_trend.
  rewrite (list_sum_perm (Permutation_map _ (sorted_by_perm _ _))).
  rewrite map_map. simpl.
  apply (@group_counted _ _ Date (fzero, 0, [])
           (fun tx (v : PyFloat * nat * list string) =>
              (fadd (fst (fst v)) (amount tx), S (snd (fst v)),
               set_add (CustomerID tx) (snd v)))
           (fun v => snd (fst v)) (fun _ _ => eq_refl) eq_refl transactions []).
Qed.

End CountedOnce.

Section CustomersCounted.

(** X29. Whenever [customer_analysis] returns, the [purchase_count]s of its
    entries add up to the number of transactions: each transaction is
    counted for exactly one customer. *)
Theorem customer_counts_add_up :
  forall transactions customers,
    customer_analysis transactions = Ok customers ->
    list_sum (map (fun kv => Customer.purchase_count (snd kv)) customers)
    = List.length transactions.
Proof.
  intros transactions customers H.
  unfold customer_analysis in H. apply bind_ok in H.
  destruct H as [l [Hl H]]. inversion H; subst; clear H.
  rewrite (list_sum_perm (Permutation_map _ (sorted_by_perm _ _))).
  apply map_result_Forall2 in Hl.
  assert (E : map (fun kv : string * Customer.summary =>
                     Customer.purchase_count (snd kv)) l
              = map (fun kv : string * (PyFloat * nat * list string) =>
                       snd (fst (snd kv))) (customer_tally transactions)).
  { induction Hl as [| x y d l Hxy _ IH]; simpl; [reflexivity |].
    apply bind_ok in Hxy. destruct Hxy as [q [_ Hxy]].
    inversion Hxy; subst; simpl. now rewrite IH. }
  rewrite E.
  apply (@group_counted _ _ CustomerID (fzero, 0, [])
           (fun tx (d : PyFloat * nat * list string) =>
              (fadd (fst (fst d)) (amount tx), S (snd (fst d)),
               set_add (ProductName tx) (snd d)))
           (fun d => snd (fst d)) (fun _ _ => eq_refl) eq_refl transactions []).
Qed.

Lemma customer_counts_add_up_witness :
  customer_analysis sample_cleaned = Ok sample_customers /\
  list_sum (map (fun kv => Customer.purchase_count (snd kv)) sample_customers)
  = List.length sample_cleaned.
Proof.
  assert (H : customer_analysis sample_cleaned = Ok sample_customers)
    by (vm_compute; reflexivity).
  split; [exact H |].
  exact (@customer_counts_add_up _ _ H).
Defined.

End CustomersCounted.
